(** * Task model of the updates page (frontend2/client/pages/Index.tsx)

    A shallow embedding of the task tree builder ([fetchUpdates]), the status
    toggles ([updateTaskStatus], [updateSubtaskStatus] and the two click
    handlers) and the time-window view ([filteredTasks]), followed by the
    properties of the specification that these functions decide. *)

From Stdlib Require Import Ascii String.
From stdpp Require Import base numbers list strings pretty gmap.

Local Open Scope Z_scope.
Local Open Scope string_scope.
#[local] Set Warnings "-register-all".

(** ** Runtime values *)

(** What [response.json()] hands to the page.  Numbers only matter here
    through their truthiness (zero or not), so an integer stands for them. *)
Inductive JSON : Type :=
  | JNull
  | JBool (b : bool)
  | JNum (z : Z)
  | JStr (s : string)
  | JArr (items : list JSON)
  | JObj (fields : list (string * JSON)).

(** A property read or an optional field: [None] is JavaScript's
    [undefined]. *)
Definition value := option JSON.

(** ToBoolean. *)
Definition truthy (v : value) : bool :=
  match v with
  | None => false
  | Some JNull => false
  | Some (JBool b) => b
  | Some (JNum z) => negb (z =? 0)%Z
  | Some (JStr s) => negb (bool_decide (s = EmptyString))
  | Some (JArr _) => true
  | Some (JObj _) => true
  end.

(** Own properties of a parsed object, first binding of the key. *)
Fixpoint assoc (k : string) (fields : list (string * JSON)) : value :=
  match fields with
  | [] => None
  | (k', v) :: rest => if bool_decide (k = k') then Some v else assoc k rest
  end.

Inductive Exn : Type := TypeError.

(** [v.k] for the keys the page reads (title, steps, status, priority,
    description, step, output): a parsed object answers with its field,
    [null] raises, every other value has no such property. *)
Definition prop (k : string) (v : JSON) : Exn + value :=
  match v with
  | JNull => inl TypeError
  | JObj fields => inr (assoc k fields)
  | _ => inr None
  end.

Definition isArray (v : value) : bool :=
  match v with Some (JArr _) => true | _ => false end.

Definition lowerAscii (c : ascii) : ascii :=
  let n := nat_of_ascii c in
  if ((65 <=? n) && (n <=? 90))%nat then ascii_of_nat (n + 32) else c.

(** [String.prototype.toLowerCase] on the bytes of the string.  Outside
    ASCII the only characters that lower-case into ASCII letters are the
    Kelvin sign (to k) and dotted capital I (to i followed by a combining
    dot); none of the words compared below contains a k, and the combining
    dot stays, so the comparisons with these words are unaffected. *)
Fixpoint toLowerCase (s : string) : string :=
  match s with
  | EmptyString => EmptyString
  | String c r => String (lowerAscii c) (toLowerCase r)
  end.

(** ** Entities *)

Inductive Status : Type := Pending | InProgress | Completed.
Inductive Priority : Type := Low | Medium | High.

Global Instance Status_eq_dec : EqDecision Status.
Proof. solve_decision. Defined.
Global Instance Priority_eq_dec : EqDecision Priority.
Proof. solve_decision. Defined.

(** Timestamps ([Date] objects) are milliseconds since the epoch. *)
Module SubTask.
Record t : Type := mk {
  id : string;
  title : JSON;
  status : Status;
  output : value;
  description : value;
  completedAt : option Z
}.
End SubTask.

Module Task.
Record t : Type := mk {
  id : string;
  title : JSON;
  description : JSON;
  status : Status;
  priority : Priority;
  createdAt : Z;
  subtasks : list SubTask.t
}.

(** [interface Task] declares no [completedAt] and no code path of the
    page stores one on a Task: reading it yields [undefined]. *)
Definition completedAt (_ : t) : option Z := None.
End Task.

(** ** Effects: the wall clock and exceptions *)

(** A computation reads the clock ([Date.now()], [new Date()]) and may
    raise.  The state is the number of readings made so far. *)
Inductive Res (A : Type) : Type :=
  | Ok (a : A) (n : nat)
  | Throw (e : Exn).
Arguments Ok {A} a n.
Arguments Throw {A} e.

Definition M (A : Type) : Type := nat -> Res A.

Definition ret {A} (a : A) : M A := fun n => Ok a n.

Definition bind {A B} (m : M A) (k : A -> M B) : M B :=
  fun n => match m n with
           | Ok a n' => k a n'
           | Throw e => Throw e
           end.

Definition throw {A} (e : Exn) : M A := fun _ => Throw e.

Definition lift {A} (r : Exn + A) : M A :=
  match r with inl e => throw e | inr a => ret a end.

Notation "x <- c1 ;; c2" := (bind c1 (fun x => c2))
  (at level 100, c1 at next level, right associativity).

(** [Array.prototype.map] with an effectful callback, left to right. *)
Fixpoint imapM {A B} (f : nat -> A -> M B) (i : nat) (l : list A) : M (list B) :=
  match l with
  | [] => ret []
  | x :: xs => y <- f i x ;; ys <- imapM f (S i) xs ;; ret (y :: ys)
  end.

Definition mapM {A B} (f : A -> M B) (l : list A) : M (list B) :=
  imapM (fun _ => f) 0%nat l.

Section Page.

(** The readings of the host's clock, in order. *)
Variable clock : nat -> Z.

Definition dateNow : M Z := fun n => Ok (clock n) (S n).

(** ** Status toggles *)

(** [updateTaskStatus], the updater passed to [setTasks]. *)
Definition updateTaskStatus (taskId : string) (newStatus : Status)
    (prev : list Task.t) : list Task.t :=
  map (fun task =>
         if bool_decide (Task.id task = taskId)
         then Task.mk (Task.id task) (Task.title task) (Task.description task)
                newStatus (Task.priority task) (Task.createdAt task)
                (Task.subtasks task)
         else task) prev.

Definition countStatus (s : Status) (l : list SubTask.t) : nat :=
  length (List.filter (fun st => bool_decide (SubTask.status st = s)) l).

(** The parent status computed inside [updateSubtaskStatus]. *)
Definition parentStatus (updatedSubtasks : list SubTask.t) : Status :=
  let completedSubtasks := countStatus Completed updatedSubtasks in
  let inProgressSubtasks := countStatus InProgress updatedSubtasks in
  if (completedSubtasks =? length updatedSubtasks)%nat then Completed
  else if ((0 <? inProgressSubtasks) || (0 <? completedSubtasks))%nat
       then InProgress
       else Pending.

Definition updateSubtask (subtaskId : string) (newStatus : Status)
    (subtask : SubTask.t) : M SubTask.t :=
  if bool_decide (SubTask.id subtask = subtaskId)
  then
    completedAt <- (if bool_decide (newStatus = Completed)
                    then d <- dateNow ;; ret (Some d)
                    else ret None) ;;
    ret (SubTask.mk (SubTask.id subtask) (SubTask.title subtask) newStatus
           (SubTask.output subtask) (SubTask.description subtask) completedAt)
  else ret subtask.

(** [updateSubtaskStatus], the updater passed to [setTasks]. *)
Definition updateSubtaskStatus (taskId subtaskId : string) (newStatus : Status)
    (prev : list Task.t) : M (list Task.t) :=
  mapM (fun task =>
          if bool_decide (Task.id task = taskId)
          then
            updatedSubtasks <- mapM (updateSubtask subtaskId newStatus)
                                 (Task.subtasks task) ;;
            ret (Task.mk (Task.id task) (Task.title task)
                   (Task.description task) (parentStatus updatedSubtasks)
                   (Task.priority task) (Task.createdAt task) updatedSubtasks)
          else ret task) prev.

(** The cycle written in both click handlers. *)
Definition nextStatus (s : Status) : Status :=
  match s with
  | Pending => InProgress
  | InProgress => Completed
  | Completed => Pending
  end.

(** The status button of a rendered task. *)
Definition onClickTask (task : Task.t) (prev : list Task.t) : list Task.t :=
  updateTaskStatus (Task.id task) (nextStatus (Task.status task)) prev.

(** The status button of a rendered subtask. *)
Definition onClickSubtask (task : Task.t) (subtask : SubTask.t)
    (prev : list Task.t) : M (list Task.t) :=
  updateSubtaskStatus (Task.id task) (SubTask.id subtask)
    (nextStatus (SubTask.status subtask)) prev.

(** A manual toggle of the subtask rendered at row [i], step [j] of the
    current collection; without such a row there is no button. *)
Definition toggleSubtaskAt (i j : nat) (tasks : list Task.t) : M (list Task.t) :=
  match tasks !! i with
  | Some task =>
      match Task.subtasks task !! j with
      | Some subtask => onClickSubtask task subtask tasks
      | None => ret tasks
      end
  | None => ret tasks
  end.

(** A manual toggle of the task rendered at row [i]. *)
Definition toggleTaskAt (i : nat) (tasks : list Task.t) : list Task.t :=
  match tasks !! i with
  | Some task => onClickTask task tasks
  | None => tasks
  end.

(** [setTasks(prev => [...prev, newTask])] of [addNewTask] and of
    [createTaskFromChat]. *)
Definition appendTask (title description : string) (prev : list Task.t)
    : M (list Task.t) :=
  taskStamp <- dateNow ;;
  created <- dateNow ;;
  stepStamp <- dateNow ;;
  ret (prev ++
       [Task.mk (pretty taskStamp) (JStr title) (JStr description) Pending
          Medium created
          [SubTask.mk (pretty stepStamp +:+ "-1") (JStr "Step 1") Pending
             None None None]])%list.

Definition addNewTask : list Task.t -> M (list Task.t) :=
  appendTask "New Task" "Click to edit this task description".

Definition createTaskFromChat (title : string) : list Task.t -> M (list Task.t) :=
  appendTask title "Created from chat - click to add details".

Definition deleteTask (taskId : string) (prev : list Task.t) : list Task.t :=
  List.filter (fun task => negb (bool_decide (Task.id task = taskId))) prev.

(** ** Task tree builder *)

(** [v.toLowerCase()]: only a string has the method. *)
Definition callToLowerCase (v : value) : M string :=
  match v with
  | Some (JStr s) => ret (toLowerCase s)
  | _ => throw TypeError
  end.

(** [v ? v.toLowerCase() : dflt]. *)
Definition lowerOr (v : value) (dflt : string) : M string :=
  if truthy v then callToLowerCase v else ret dflt.

(** [v || dflt]. *)
Definition orElse (v : value) (dflt : JSON) : JSON :=
  match v with
  | Some j => if truthy v then j else dflt
  | None => dflt
  end.

Definition statusOf (status : string) : Status :=
  if bool_decide (status = "completed") then Completed
  else if bool_decide (status = "in-progress") then InProgress
  else Pending.

Definition priorityOf (priority : string) : Priority :=
  if bool_decide (priority = "high") then High
  else if bool_decide (priority = "low") then Low
  else Medium.

Definition subtaskId (stamp : Z) (index subIndex : nat) : string :=
  pretty stamp +:+ "-" +:+ pretty index +:+ "-" +:+ pretty subIndex.

Definition taskId (stamp : Z) (index : nat) : string :=
  pretty stamp +:+ "-" +:+ pretty index.

(** The callback mapped over [toolData.steps]. *)
Definition buildSubtask (index subIndex : nat) (step : JSON) : M SubTask.t :=
  stepStatus <- lift (prop "status" step) ;;
  status <- lowerOr stepStatus "pending" ;;
  stamp <- dateNow ;;
  stepStep <- lift (prop "step" step) ;;
  stepOutput <- lift (prop "output" step) ;;
  stepDescription <- lift (prop "description" step) ;;
  completedAt <- (if bool_decide (status = "completed")
                  then d <- dateNow ;; ret (Some d)
                  else ret None) ;;
  ret (SubTask.mk (subtaskId stamp index subIndex)
         (orElse stepStep (JStr ("Step " +:+ pretty (subIndex + 1)%nat)))
         (statusOf status) stepOutput stepDescription completedAt).

Definition arrayItems (v : value) : list JSON :=
  match v with Some (JArr items) => items | _ => [] end.

(** The callback mapped over [updates]; [None] is the [null] it returns
    for an item it skips. *)
Definition buildTask (index : nat) (toolData : JSON) : M (option Task.t) :=
  if negb (truthy (Some toolData)) then ret None
  else
    dataTitle <- lift (prop "title" toolData) ;;
    if negb (truthy dataTitle) then ret None
    else
      dataSteps <- lift (prop "steps" toolData) ;;
      if negb (isArray dataSteps) then ret None
      else
        subtasks <- imapM (buildSubtask index) 0%nat (arrayItems dataSteps) ;;
        dataPriority <- lift (prop "priority" toolData) ;;
        priority <- lowerOr dataPriority "medium" ;;
        dataStatus <- lift (prop "status" toolData) ;;
        status <- lowerOr dataStatus "pending" ;;
        stamp <- dateNow ;;
        dataDescription <- lift (prop "description" toolData) ;;
        created <- dateNow ;;
        ret (Some (Task.mk (taskId stamp index)
                     (orElse dataTitle (JStr "Untitled Task"))
                     (orElse dataDescription (JStr "No description provided."))
                     (statusOf status) (priorityOf priority) created subtasks)).

(** [.filter(task => task !== null)]. *)
Definition nonNull {A} (l : list (option A)) : list A := omap id l.

(** [fetchUpdates] once [fetchDailyUpdates] has answered with [data]: the
    collection it leaves in the [tasks] state.  A raised exception rejects
    the call before [setTasks] is reached. *)
Definition fetchUpdates (data : JSON) (tasks : list Task.t) : M (list Task.t) :=
  if truthy (Some data) then
    let updates := if isArray (Some data) then arrayItems (Some data) else [data] in
    if (0 <? length updates)%nat && truthy (updates !! 0%nat) then
      newTasks <- imapM buildTask 0%nat updates ;;
      ret (nonNull newTasks)
    else ret []
  else ret tasks.

End Page.

(** ** Time-window view *)

Inductive Tab : Type := TabUpdates | TabTasks | TabChat.
Inductive Window : Type := Today | Yesterday | Week.

Section View.

(** [new Date(now.getFullYear(), now.getMonth(), now.getDate())]: the start
    of the calendar day of an instant in the host's time zone. *)
Variable startOfDay : Z -> Z.

Definition hasRecentSubtaskActivity (updatesFilter : Window)
    (today yesterday weekStart : Z) (task : Task.t) : bool :=
  existsb (fun subtask =>
             match SubTask.completedAt subtask with
             | None => false
             | Some completedDate =>
                 match updatesFilter with
                 | Today => (completedDate >=? today)%Z
                 | Yesterday =>
                     (completedDate >=? yesterday)%Z && (completedDate <? today)%Z
                 | Week => (completedDate >=? weekStart)%Z
                 end
             end) (Task.subtasks task).

Definition isRecentTask (updatesFilter : Window)
    (today yesterday weekStart : Z) (task : Task.t) : bool :=
  let taskCreatedDate := Task.createdAt task in
  match updatesFilter with
  | Today => (taskCreatedDate >=? today)%Z
  | Yesterday => (taskCreatedDate >=? yesterday)%Z && (taskCreatedDate <? today)%Z
  | Week => (taskCreatedDate >=? weekStart)%Z
  end.

(** The part of [filteredTasks] below its first [return]: the time-window
    filter proper. *)
Definition timeWindowFilter (updatesFilter : Window) (now : Z)
    (tasks : list Task.t) : list Task.t :=
  let today := startOfDay now in
  let yesterday := (today - 24 * 60 * 60 * 1000)%Z in
  let weekStart := (today - 7 * 24 * 60 * 60 * 1000)%Z in
  List.filter (fun task =>
                 hasRecentSubtaskActivity updatesFilter today yesterday weekStart task
                 || isRecentTask updatesFilter today yesterday weekStart task)
    tasks.

Definition filteredTasks (activeTab : Tab) (updatesFilter : Window) (now : Z)
    (tasks : list Task.t) : list Task.t :=
  match activeTab with
  | TabUpdates => tasks
  | _ => timeWindowFilter updatesFilter now tasks
  end.

End View.

(** Start of the UTC day, a time zone to run the view in. *)
Definition utcStartOfDay (now : Z) : Z := (now - now `mod` 86400000)%Z.

(** ** The rest of the page *)

(** [toggleTaskExpansion], the updater passed to [setExpandedTasks]: the
    set is only ever asked whether it has an id. *)
Definition toggleTaskExpansion (taskId : string) (prev : gset string)
    : gset string :=
  if bool_decide (taskId ∈ prev) then prev ∖ {[taskId]} else prev ∪ {[taskId]}.

(** The task shown by the details dialog: nothing while [viewingTaskId] is
    null or empty, else the first task that carries the id. *)
Definition viewedTask (viewingTaskId : option string) (tasks : list Task.t)
    : option Task.t :=
  match viewingTaskId with
  | Some taskId =>
      if bool_decide (taskId = EmptyString) then None
      else List.find (fun t => bool_decide (Task.id t = taskId)) tasks
  | None => None
  end.

Module SimpleTask.
Record t : Type := mk {
  id : string;
  title : string;
  completed : bool;
  createdAt : Z
}.
End SimpleTask.

Definition toggleSimpleTask (taskId : string) (prev : list SimpleTask.t)
    : list SimpleTask.t :=
  map (fun task =>
         if bool_decide (SimpleTask.id task = taskId)
         then SimpleTask.mk (SimpleTask.id task) (SimpleTask.title task)
                (negb (SimpleTask.completed task)) (SimpleTask.createdAt task)
         else task) prev.

Definition deleteSimpleTask (taskId : string) (prev : list SimpleTask.t)
    : list SimpleTask.t :=
  List.filter (fun task => negb (bool_decide (SimpleTask.id task = taskId))) prev.

(** The counter above the list: completed tasks, and all tasks. *)
Definition completedCount (simpleTasks : list SimpleTask.t) : nat :=
  length (List.filter SimpleTask.completed simpleTasks).

(** What the request to the daily updates endpoint came to: the exchange
    failed, or a response arrived with its [ok] flag and a body that
    [response.json()] could read or not. *)
Inductive HttpReply : Type :=
  | NetworkFailure
  | Reply (ok : bool) (body : option JSON).

(** [fetchDailyUpdates]: every failure is caught and answered with an
    object that holds an empty [tool_results]. *)
Definition fetchDailyUpdates (reply : HttpReply) : JSON :=
  match reply with
  | Reply true (Some data) => data
  | _ => JObj [("tool_results", JArr [])]
  end.

(** [generateAIResponse]: a failure is answered with a sentence. *)
Definition generateAIResponse (reply : HttpReply) : JSON :=
  match reply with
  | Reply true (Some data) => data
  | _ => JStr "Sorry, I'm having trouble connecting to the server."
  end.

Definition nl : string := String (ascii_of_nat 10) EmptyString.

Section Chat.

(** The host's clock, [String.prototype.trim], [JSON.parse] ([None] when it
    raises), the text of a number in a template literal, and
    [JSON.stringify] with an indent of two. *)
Variable clock : nat -> Z.
Variable trim : string -> string.
Variable parse : string -> option JSON.
Variable numberToString : Z -> string.
Variable stringify : JSON -> string.

(** [addSimpleTask] on the states [simpleTasks] and [newTaskInput]. *)
Definition addSimpleTask (newTaskInput : string)
    (simpleTasks : list SimpleTask.t) : M (list SimpleTask.t * string) :=
  if bool_decide (trim newTaskInput = EmptyString)
  then ret (simpleTasks, newTaskInput)
  else
    stamp <- dateNow clock ;;
    created <- dateNow clock ;;
    ret ((simpleTasks ++
          [SimpleTask.mk (pretty stamp) (trim newTaskInput) false created])%list,
         EmptyString).

(** A value inside a template literal, that is [ToString] of it.  An array
    joins its items with commas, null items as the empty text.  A parsed
    object inherits [Object.prototype.toString] unless it has a key
    toString of its own: the value under that key is no function, and
    neither [valueOf] gives a primitive, so the conversion raises. *)
Fixpoint toStr (v : JSON) : Exn + string :=
  match v with
  | JNull => inr "null"
  | JBool b => inr (if b then "true" else "false")
  | JNum z => inr (numberToString z)
  | JStr s => inr s
  | JArr items =>
      match
        (fix join (items : list JSON) : Exn + list string :=
           match items with
           | [] => inr []
           | x :: rest =>
               match (match x with JNull => inr EmptyString | _ => toStr x end) with
               | inl e => inl e
               | inr text =>
                   match join rest with
                   | inl e => inl e
                   | inr texts => inr (text :: texts)
                   end
               end
           end) items
      with
      | inl e => inl e
      | inr texts => inr (String.concat "," texts)
      end
  | JObj fields =>
      match assoc "toString" fields with
      | Some _ => inl TypeError
      | None => inr "[object Object]"
      end
  end.

Definition show (v : value) : Exn + string :=
  match v with Some j => toStr j | None => inr "undefined" end.

(** [if (v) response_parts.push(text)], with [v] inside the text. *)
Definition pushIf (v : value) (text : string -> string) : M (list string) :=
  if truthy v then inside <- lift (show v) ;; ret [text inside] else ret [].

(** The body of the loop over [toolData.steps] in [handleSendMessage]. *)
Definition renderStep (step : JSON) : M (list string) :=
  stepStep <- lift (prop "step" step) ;;
  name <- pushIf stepStep (fun text => "- **" +:+ text +:+ "**") ;;
  stepDescription <- lift (prop "description" step) ;;
  description <- (if truthy stepDescription
                  then text <- lift (show stepDescription) ;;
                       ret [": " +:+ text +:+ nl]
                  else ret [nl]) ;;
  stepStatus <- lift (prop "status" step) ;;
  status <- pushIf stepStatus (fun text => "  Status: " +:+ text +:+ nl) ;;
  stepOutput <- lift (prop "output" step) ;;
  output <- pushIf stepOutput (fun text => "  Output: " +:+ text +:+ nl) ;;
  ret (name ++ description ++ status ++ output ++ [nl])%list.

(** [result.tool === 'get_updates']. *)
Definition isGetUpdates (tool : value) : bool :=
  match tool with
  | Some (JStr s) => bool_decide (s = "get_updates")
  | _ => false
  end.

(** What [handleSendMessage] pushes for a [toolData] it shows. *)
Definition renderToolData (toolData : JSON) : M (list string) :=
  dataTitle <- lift (prop "title" toolData) ;;
  if truthy dataTitle then
    title <- lift (show dataTitle) ;;
    dataStatus <- lift (prop "status" toolData) ;;
    status <- pushIf dataStatus (fun text => "Status: " +:+ text +:+ nl) ;;
    dataPriority <- lift (prop "priority" toolData) ;;
    priority <- pushIf dataPriority (fun text => "Priority: " +:+ text +:+ nl) ;;
    dataSteps <- lift (prop "steps" toolData) ;;
    steps <- (if isArray dataSteps
              then rendered <- mapM renderStep (arrayItems dataSteps) ;;
                   ret ((nl +:+ "**Steps:**" +:+ nl) :: concat rendered)
              else ret []) ;;
    ret (["**" +:+ title +:+ "**" +:+ nl] ++ status ++ priority ++ steps)%list
  else
    ret ["**Tool Result:**" +:+ nl +:+ "```json" +:+ nl +:+ stringify toolData
         +:+ nl +:+ "```" +:+ nl].

(** The body of the loop over [parsedData.tool_results]. *)
Definition renderResult (result : JSON) : M (list string) :=
  tool <- lift (prop "tool" result) ;;
  toolResult <- lift (prop "result" result) ;;
  match toolResult with
  | Some toolData =>
      if isGetUpdates tool && truthy toolResult then renderToolData toolData
      else ret []
  | None => ret []
  end.

Definition defaultContent : string :=
  "I received a response, but I'm not sure how to display it.".

Definition contentHeader : string :=
  "Based on your query, here's what I found: " +:+ nl +:+ nl.

(** [data.response && typeof data.response === 'string']. *)
Definition nonEmptyString (v : value) : option string :=
  match v with
  | Some (JStr s) => if truthy v then Some s else None
  | _ => None
  end.

(** The [responseContent] that [handleSendMessage] computes from the
    answer of [generateAIResponse]. *)
Definition responseContent (data : JSON) : M string :=
  if truthy (Some data) then
    dataResponse <- lift (prop "response" data) ;;
    let parsedData : JSON :=
      match nonEmptyString dataResponse with
      | Some text => match parse text with Some j => j | None => JNull end
      | None => data
      end in
    let unstructured : M string :=
      match data with
      | JStr text => ret text
      | _ =>
          match nonEmptyString dataResponse with
          | Some text => ret text
          | None => ret defaultContent
          end
      end in
    if truthy (Some parsedData) then
      toolResults <- lift (prop "tool_results" parsedData) ;;
      if isArray toolResults then
        rendered <- mapM renderResult (arrayItems toolResults) ;;
        ret (String.concat EmptyString (contentHeader :: concat rendered))
      else unstructured
    else unstructured
  else ret defaultContent.

End Chat.

(** ** The updates service of the backend *)

(** [UpdateRepository] is a [JpaRepository<Update, Long>]: the stored
    entities by id, with [findById], [existsById] and [deleteById] as
    lookup, definedness and removal.  The service and the controller never
    look inside an entity. *)
Module UpdateService.
Section WithEntity.
Variable Update : Type.

Definition getUpdate (id : Z) (updateRepository : gmap Z Update)
    : option Update :=
  updateRepository !! id.

Definition deleteUpdate (id : Z) (updateRepository : gmap Z Update)
    : bool * gmap Z Update :=
  if bool_decide (is_Some (updateRepository !! id))
  then (true, delete id updateRepository)
  else (false, updateRepository).

End WithEntity.
End UpdateService.

Inductive ResponseEntity (A : Type) : Type :=
  | ok (body : A)
  | noContent
  | notFound.
Arguments ok {A} body.
Arguments noContent {A}.
Arguments notFound {A}.

Module UpdateController.
Section WithEntity.
Variable Update : Type.

Definition getUpdate (id : Z) (updateRepository : gmap Z Update)
    : ResponseEntity Update :=
  match UpdateService.getUpdate Update id updateRepository with
  | Some update => ok update
  | None => notFound
  end.

Definition deleteUpdate (id : Z) (updateRepository : gmap Z Update)
    : ResponseEntity unit * gmap Z Update :=
  let (deleted, repository) :=
    UpdateService.deleteUpdate Update id updateRepository in
  (if deleted then noContent else notFound, repository).

End WithEntity.
End UpdateController.

(** * Vocabulary of the properties *)

(** ** Reading records *)

(** The property read [v.k] once [v] is known not to be [null]. *)
Definition field (k : string) (v : JSON) : value :=
  match v with JObj fields => assoc k fields | _ => None end.

Definition isStr (v : value) : bool :=
  match v with Some (JStr _) => true | _ => false end.

(** [v ? v.toLowerCase() : dflt] returns: [v] is falsy or a string. *)
Definition lowerable (v : value) : bool := negb (truthy v) || isStr v.

(** Its result then. *)
Definition lowered (v : value) (dflt : string) : string :=
  match v with
  | Some (JStr s) => if truthy v then toLowerCase s else dflt
  | _ => dflt
  end.

(** The map callback keeps the record: it is truthy, its title is truthy
    and its steps are an array. *)
Definition validRecord (r : JSON) : bool :=
  truthy (Some r) && truthy (field "title" r) && isArray (field "steps" r).

(** A step the subtask callback returns on. *)
Definition stepOk (step : JSON) : bool :=
  match step with
  | JNull => false
  | _ => lowerable (field "status" step)
  end.

(** A kept record whose build returns. *)
Definition buildable (r : JSON) : bool :=
  forallb stepOk (arrayItems (field "steps" r))
  && lowerable (field "priority" r) && lowerable (field "status" r).

(** ** Matching without regard to case *)

(** Two strings that differ in the case of their letters only. *)
Definition sameIgnoringCase (a b : string) : Prop :=
  toLowerCase a = toLowerCase b.

Global Instance sameIgnoringCase_dec a b : Decision (sameIgnoringCase a b).
Proof. unfold sameIgnoringCase. apply _. Defined.

(** The rule of the specification: the record's priority matched against
    high, medium and low without regard to case, anything else and a
    missing value being medium. *)
Definition matchPriority (v : value) : Priority :=
  match v with
  | Some (JStr s) =>
      if bool_decide (sameIgnoringCase s "high") then High
      else if bool_decide (sameIgnoringCase s "medium") then Medium
      else if bool_decide (sameIgnoringCase s "low") then Low
      else Medium
  | _ => Medium
  end.

(** Likewise the status against completed and in-progress, anything else
    and a missing value being pending. *)
Definition matchStatus (v : value) : Status :=
  match v with
  | Some (JStr s) =>
      if bool_decide (sameIgnoringCase s "completed") then Completed
      else if bool_decide (sameIgnoringCase s "in-progress") then InProgress
      else Pending
  | _ => Pending
  end.

(** ** Rows of the collection *)

(** Status of the subtask rendered at row [i], step [j], and of the task
    rendered at row [i]. *)
Definition subtaskStatusAt (i j : nat) (tasks : list Task.t) : option Status :=
  match tasks !! i with
  | Some t => SubTask.status <$> Task.subtasks t !! j
  | None => None
  end.

Definition taskStatusAt (i : nat) (tasks : list Task.t) : option Status :=
  Task.status <$> tasks !! i.

(** Every field of the task but its status. *)
Definition sameButStatus (t t' : Task.t) : Prop :=
  Task.id t' = Task.id t /\ Task.title t' = Task.title t /\
  Task.description t' = Task.description t /\
  Task.priority t' = Task.priority t /\
  Task.createdAt t' = Task.createdAt t /\
  Task.subtasks t' = Task.subtasks t.

Definition unknownTask (taskId : string) (tasks : list Task.t) : Prop :=
  Forall (fun t => Task.id t <> taskId) tasks.

(** The task id is present, the subtask id is in none of the tasks that
    carry it. *)
Definition unknownSubtask (taskId subtaskId : string) (tasks : list Task.t)
    : Prop :=
  Forall (fun t => Task.id t = taskId ->
                   Forall (fun st => SubTask.id st <> subtaskId)
                     (Task.subtasks t)) tasks.

(** With a subtask id that the addressed task does not have, the subtasks
    stay and the status is derived from them again. *)
Definition rederive (taskId : string) (t : Task.t) : Task.t :=
  if bool_decide (Task.id t = taskId)
  then Task.mk (Task.id t) (Task.title t) (Task.description t)
         (parentStatus (Task.subtasks t)) (Task.priority t) (Task.createdAt t)
         (Task.subtasks t)
  else t.

(** ** Identifiers *)

(** The pieces of a string between its dashes. *)
Fixpoint fields (s : string) : list string :=
  match s with
  | EmptyString => [EmptyString]
  | String c r =>
      if Ascii.eqb c "-" then EmptyString :: fields r
      else match fields r with
           | h :: t => String c h :: t
           | [] => [String c EmptyString]
           end
  end.

Fixpoint noDash (s : string) : bool :=
  match s with
  | EmptyString => true
  | String c r => negb (Ascii.eqb c "-") && noDash r
  end.

Definition taskIds (t : Task.t) : list string :=
  Task.id t :: (SubTask.id <$> Task.subtasks t).

(** Every identifier of the collection, task by task. *)
Definition allIds (tasks : list Task.t) : list string := tasks ≫= taskIds.

(** An identifier made for the record at position [index]. *)
Definition idAt (index : nat) (s : string) : Prop :=
  (exists stamp, s = taskId stamp index) \/
  (exists stamp subIndex, s = subtaskId stamp index subIndex).

(** ** Consistency of completedAt, and windows *)

Definition subtaskConsistent (st : SubTask.t) : Prop :=
  is_Some (SubTask.completedAt st) <-> SubTask.status st = Completed.

Definition consistent (tasks : list Task.t) : Prop :=
  Forall (fun t => Forall subtaskConsistent (Task.subtasks t)) tasks.

(** The window comparisons of the specification, on the start of the
    current day. *)
Definition inWindow (w : Window) (today d : Z) : Prop :=
  match w with
  | Today => today <= d
  | Yesterday => today - 24 * 60 * 60 * 1000 <= d /\ d < today
  | Week => today - 7 * 24 * 60 * 60 * 1000 <= d
  end.

(** The task is active in the window: a subtask was completed in it, or
    the task was created in it. *)
Definition activeIn (w : Window) (today : Z) (t : Task.t) : Prop :=
  (exists st d, st ∈ Task.subtasks t /\ SubTask.completedAt st = Some d /\
                inWindow w today d) \/
  inWindow w today (Task.createdAt t).

(** ** Sample data *)

Definition sampleClock (n : nat) : Z := 1700000000000 + Z.of_nat n.

Definition sampleStep (id : string) (status : Status) (completedAt : option Z)
    : SubTask.t :=
  SubTask.mk id (JStr "Backup") status None None completedAt.

Definition sampleTask (id : string) (status : Status)
    (subtasks : list SubTask.t) : Task.t :=
  Task.mk id (JStr "Patch server") (JStr "No description provided.") status
    High 1700000000000 subtasks.

Definition sampleRecord : JSON :=
  JObj [("title", JStr "Patch server"); ("status", JStr "In-Progress");
        ("priority", JStr "HIGH");
        ("steps", JArr [JObj [("step", JStr "Backup"); ("status", JStr "COMPLETED")];
                        JObj [("status", JStr "waiting")]])].

(** Two records are dropped (one without title, one with steps that are
    not an array and a priority that is no string), two are kept. *)
Definition sampleRecords : list JSON :=
  [JObj [("steps", JArr [])];
   sampleRecord;
   JObj [("title", JStr "Broken"); ("steps", JStr "none"); ("priority", JNum 3)];
   JObj [("title", JStr "Rotate keys"); ("steps", JArr [])]].

(** ** What the updaters and the builder return *)

Section Vocabulary.

Variable clock : nat -> Z.

(** What [updateSubtaskStatus] does to one subtask: a subtask with the
    addressed id gets the new status and a [completedAt] that is a clock
    reading exactly when the new status is completed; any other subtask is
    kept. *)
Definition subtaskUpdated (subtaskId : string) (newStatus : Status)
    (st st' : SubTask.t) : Prop :=
  if bool_decide (SubTask.id st = subtaskId)
  then exists m,
      st' = SubTask.mk (SubTask.id st) (SubTask.title st) newStatus
              (SubTask.output st) (SubTask.description st)
              (if bool_decide (newStatus = Completed) then Some (clock m) else None)
  else st' = st.

(** What it does to one task. *)
Definition taskUpdated (taskId subtaskId : string) (newStatus : Status)
    (t t' : Task.t) : Prop :=
  if bool_decide (Task.id t = taskId)
  then exists subs,
      Forall2 (subtaskUpdated subtaskId newStatus) (Task.subtasks t) subs /\
      t' = Task.mk (Task.id t) (Task.title t) (Task.description t)
             (parentStatus subs) (Task.priority t) (Task.createdAt t) subs
  else t' = t.

(** The subtask built from a step when the clock has been read [n] times. *)
Definition builtSubtask (index subIndex : nat) (step : JSON) (n : nat)
    : SubTask.t :=
  let status := lowered (field "status" step) "pending" in
  SubTask.mk (subtaskId (clock n) index subIndex)
    (orElse (field "step" step) (JStr ("Step " +:+ pretty (subIndex + 1)%nat)))
    (statusOf status) (field "output" step) (field "description" step)
    (if bool_decide (status = "completed") then Some (clock (S n)) else None).

(** The task built from a kept record once its subtasks are there and the
    clock has been read [n] times. *)
Definition builtTask (index : nat) (r : JSON) (subtasks : list SubTask.t)
    (n : nat) : Task.t :=
  Task.mk (taskId (clock n) index)
    (orElse (field "title" r) (JStr "Untitled Task"))
    (orElse (field "description" r) (JStr "No description provided."))
    (statusOf (lowered (field "status" r) "pending"))
    (priorityOf (lowered (field "priority" r) "medium"))
    (clock (S n)) subtasks.

(** The task is what the map callback returned for the record, and shows
    the record's title. *)
Definition taskOf (r : JSON) (t : Task.t) : Prop :=
  (exists index n n', buildTask clock index r n = Ok (Some t) n') /\
  Some (Task.title t) = field "title" r.

(** The collections the page can hold, with the number of clock readings
    made so far: the initial empty one, and what each call of [setTasks]
    leaves. *)
Inductive reachable : list Task.t -> nat -> Prop :=
  | reach_init n : reachable [] n
  | reach_fetchUpdates data tasks n tasks' n' :
      reachable tasks n ->
      fetchUpdates clock data tasks n = Ok tasks' n' ->
      reachable tasks' n'
  | reach_updateTaskStatus taskId newStatus tasks n :
      reachable tasks n ->
      reachable (updateTaskStatus taskId newStatus tasks) n
  | reach_updateSubtaskStatus taskId subtaskId newStatus tasks n tasks' n' :
      reachable tasks n ->
      updateSubtaskStatus clock taskId subtaskId newStatus tasks n = Ok tasks' n' ->
      reachable tasks' n'
  | reach_addNewTask tasks n tasks' n' :
      reachable tasks n ->
      addNewTask clock tasks n = Ok tasks' n' ->
      reachable tasks' n'
  | reach_createTaskFromChat title tasks n tasks' n' :
      reachable tasks n ->
      createTaskFromChat clock title tasks n = Ok tasks' n' ->
      reachable tasks' n'
  | reach_deleteTask taskId tasks n :
      reachable tasks n ->
      reachable (deleteTask taskId tasks) n.

End Vocabulary.

(** ** Frames of the updates *)

(** Everything of a subtask that no update writes. *)
Definition sameSubtaskFrame (st st' : SubTask.t) : Prop :=
  SubTask.id st' = SubTask.id st /\ SubTask.title st' = SubTask.title st /\
  SubTask.output st' = SubTask.output st /\
  SubTask.description st' = SubTask.description st.

(** Everything of a task that no update writes, subtask by subtask. *)
Definition sameTaskFrame (t t' : Task.t) : Prop :=
  Task.id t' = Task.id t /\ Task.title t' = Task.title t /\
  Task.description t' = Task.description t /\
  Task.priority t' = Task.priority t /\
  Task.createdAt t' = Task.createdAt t /\
  Forall2 sameSubtaskFrame (Task.subtasks t) (Task.subtasks t').

(** The subtask a click leaves in place of the clicked one, when the clock
    has been read [n] times. *)
Definition clickedSubtask (clock : nat -> Z) (n : nat) (st : SubTask.t)
    : SubTask.t :=
  SubTask.mk (SubTask.id st) (SubTask.title st) (nextStatus (SubTask.status st))
    (SubTask.output st) (SubTask.description st)
    (if bool_decide (nextStatus (SubTask.status st) = Completed)
     then Some (clock n) else None).

(** The task around it. *)
Definition clickedTask (t : Task.t) (subtasks : list SubTask.t) : Task.t :=
  Task.mk (Task.id t) (Task.title t) (Task.description t)
    (parentStatus subtasks) (Task.priority t) (Task.createdAt t) subtasks.

(** ** Replies and answers *)

(** The request brought no body the page can read: the exchange failed,
    the status was not ok, or the body could not be read. *)
Definition failed (reply : HttpReply) : Prop :=
  match reply with Reply true (Some _) => False | _ => True end.

(** What a failed query is answered with. *)
Definition apology : string :=
  "Sorry, I'm having trouble connecting to the server.".

(** An answer that carries [toolResults], and the same answer as text in
    a [response] field. *)
Definition answerWith (toolResults : list JSON) : JSON :=
  JObj [("tool_results", JArr toolResults)].

(** [parsedData && Array.isArray(parsedData.tool_results)]. *)
Definition structured (parsedData : JSON) : bool :=
  truthy (Some parsedData) && isArray (field "tool_results" parsedData).

(** A tool result that the chat shows:
    [result.tool === 'get_updates' && result.result]. *)
Definition shown (result : JSON) : bool :=
  isGetUpdates (field "tool" result) && truthy (field "result" result).

(** A value whose text can be taken: no object in it, at any depth of
    arrays, has a key toString of its own. *)
Fixpoint printable (v : JSON) : bool :=
  match v with
  | JArr items => forallb printable items
  | JObj fields =>
      match assoc "toString" fields with Some _ => false | None => true end
  | _ => true
  end.

Definition printableValue (v : value) : bool :=
  match v with Some j => printable j | None => true end.

(** A step that can be displayed: it is not null and the four fields that
    are put in the text are printable. *)
Definition renderableStep (step : JSON) : Prop :=
  step <> JNull /\
  printableValue (field "step" step) = true /\
  printableValue (field "description" step) = true /\
  printableValue (field "status" step) = true /\
  printableValue (field "output" step) = true.

(** A tool result whose display cannot raise: it is not null, the title,
    status and priority of what it carries are printable, and its steps
    can be displayed. *)
Definition renderable (result : JSON) : Prop :=
  result <> JNull /\
  forall toolData, field "result" result = Some toolData ->
    printableValue (field "title" toolData) = true /\
    printableValue (field "status" toolData) = true /\
    printableValue (field "priority" toolData) = true /\
    Forall renderableStep (arrayItems (field "steps" toolData)).

(** The parts pushed by the loop over [tool_results]. *)
Definition renderResults (numberToString : Z -> string)
    (stringify : JSON -> string) (toolResults : list JSON) : M (list string) :=
  rendered <- mapM (renderResult numberToString stringify) toolResults ;;
  ret (concat rendered).

(** The task that [updateTaskStatus] leaves in place of [task]. *)
Definition withStatus (taskId : string) (newStatus : Status) (task : Task.t)
    : Task.t :=
  if bool_decide (Task.id task = taskId)
  then Task.mk (Task.id task) (Task.title task) (Task.description task)
         newStatus (Task.priority task) (Task.createdAt task)
         (Task.subtasks task)
  else task.

(** A trim that only removes blanks at both ends, to run the page with. *)
Fixpoint dropBlanks (s : string) : string :=
  match s with
  | String " " rest => dropBlanks rest
  | _ => s
  end.

Definition sampleTrim (s : string) : string :=
  String.rev (dropBlanks (String.rev (dropBlanks s))).

(** * Properties *)

(** ** The monad *)

Lemma bind_Ok {A B} (m : M A) (k : A -> M B) n a n' :
  m n = Ok a n' -> bind m k n = k a n'.
Proof. unfold bind. by intros ->. Qed.

Lemma bind_Ok_inv {A B} (m : M A) (k : A -> M B) n b n'' :
  bind m k n = Ok b n'' -> exists a n', m n = Ok a n' /\ k a n' = Ok b n''.
Proof. unfold bind. destruct (m n) as [a n'|e]; [eauto | done]. Qed.

(** If the callback always returns, so does the map, and the results are
    related to the arguments position by position. *)
Lemma imapM_Forall2 {A B} (f : nat -> A -> M B) (R : A -> B -> Prop) l :
  (forall i x n, x ∈ l -> exists y n', f i x n = Ok y n' /\ R x y) ->
  forall i n, exists ys n', imapM f i l n = Ok ys n' /\ Forall2 R l ys.
Proof.
  induction l as [|x l IH]; intros Hf i n; simpl.
  - exists [], n. split; [done | constructor].
  - destruct (Hf i x n) as (y & n1 & Hy & HR); [left |].
    destruct (IH (fun j z m Hz => Hf j z m (list_elem_of_further _ _ _ Hz))
                (S i) n1) as (ys & n2 & Hys & HF).
    exists (y :: ys), n2. split; [| by constructor].
    rewrite (bind_Ok _ _ _ _ _ Hy), (bind_Ok _ _ _ _ _ Hys). done.
Qed.

Lemma mapM_Forall2 {A B} (f : A -> M B) (R : A -> B -> Prop) l :
  (forall x n, x ∈ l -> exists y n', f x n = Ok y n' /\ R x y) ->
  forall n, exists ys n', mapM f l n = Ok ys n' /\ Forall2 R l ys.
Proof. intros Hf n. apply imapM_Forall2. intros _ x m. apply Hf. Qed.

(** A map whose callback leaves the clock alone is a pure map. *)
Lemma imapM_pure {A B} (f : nat -> A -> M B) (g : A -> B) l :
  (forall i x n, x ∈ l -> f i x n = Ok (g x) n) ->
  forall i n, imapM f i l n = Ok (map g l) n.
Proof.
  induction l as [|x l IH]; intros Hf i n; simpl; [done |].
  rewrite (bind_Ok _ _ _ _ _ (Hf i x n ltac:(left))).
  rewrite (bind_Ok _ _ _ _ _ (IH (fun j z m Hz =>
             Hf j z m (list_elem_of_further _ _ _ Hz)) (S i) n)).
  done.
Qed.

Lemma imapM_id {A} (f : nat -> A -> M A) l :
  (forall i x n, x ∈ l -> f i x n = Ok x n) ->
  forall i n, imapM f i l n = Ok l n.
Proof.
  intros Hf i n. rewrite (imapM_pure f id l Hf). by rewrite map_id.
Qed.

(** Mapping over a mapped list, and over the same list with a callback
    that agrees on its items. *)
Lemma imapM_map {A B C} (f : nat -> B -> M C) (g : A -> B) l :
  forall i n, imapM f i (map g l) n = imapM (fun j x => f j (g x)) i l n.
Proof.
  induction l as [|x l IH]; intros i n; simpl; [done |].
  unfold bind. destruct (f i (g x) n) as [y n1|e]; [| done]. by rewrite IH.
Qed.

Lemma imapM_ext {A B} (f g : nat -> A -> M B) l :
  (forall i x n, x ∈ l -> f i x n = g i x n) ->
  forall i n, imapM f i l n = imapM g i l n.
Proof.
  induction l as [|x l IH]; intros Hfg i n; simpl; [done |].
  unfold bind. rewrite (Hfg i x n ltac:(left)).
  destruct (g i x n) as [y n1|e]; [| done].
  by rewrite (IH (fun j z m Hz => Hfg j z m (list_elem_of_further _ _ _ Hz))).
Qed.

(** What a returned map says about each position: the callback returned
    there, at the position's index. *)
Lemma imapM_Ok_inv {A B} (f : nat -> A -> M B) l :
  forall i n ys n', imapM f i l n = Ok ys n' ->
  length ys = length l /\
  forall k x, l !! k = Some x ->
    exists y m m', ys !! k = Some y /\ f (i + k)%nat x m = Ok y m'.
Proof.
  induction l as [|x l IH]; intros i n ys n' H; simpl in H.
  - inversion H; subst. split; [done | intros k x Hk; by destruct k].
  - apply bind_Ok_inv in H as (y & n1 & Hy & H).
    apply bind_Ok_inv in H as (ys' & n2 & Hys & H).
    inversion H; subst. destruct (IH _ _ _ _ Hys) as [Hlen Hpos].
    split; [simpl; by rewrite Hlen |].
    intros [|k] z Hk; simpl in Hk.
    + inversion Hk; subst. exists y, n, n1. by rewrite Nat.add_0_r.
    + destruct (Hpos k z Hk) as (y' & m & m' & Hy' & Hf).
      exists y', m, m'. split; [done |].
      by replace (i + S k)%nat with (S i + k)%nat by lia.
Qed.

(** A map returns as soon as its callback returns at every position. *)
Lemma imapM_total {A B} (f : nat -> A -> M B) l :
  (forall i x n, x ∈ l -> exists y n', f i x n = Ok y n') ->
  forall i n, exists ys n', imapM f i l n = Ok ys n'.
Proof.
  intros Hf i n.
  destruct (imapM_Forall2 f (fun _ _ => True) l) with (i := i) (n := n)
    as (ys & n' & H & _); [| by eauto].
  intros j x m Hx. destruct (Hf j x m Hx) as (y & m' & Hy). eauto.
Qed.

(** ** Status aggregation *)

Section Toggles.

Variable clock : nat -> Z.

Lemma updateSubtask_spec subtaskId newStatus st n :
  exists st' n', updateSubtask clock subtaskId newStatus st n = Ok st' n' /\
                 subtaskUpdated clock subtaskId newStatus st st'.
Proof.
  unfold updateSubtask, subtaskUpdated.
  destruct (bool_decide (SubTask.id st = subtaskId)).
  - destruct (bool_decide (newStatus = Completed)); cbn; eauto.
  - exists st, n. by destruct st.
Qed.

Lemma updateSubtaskStatus_spec taskId subtaskId newStatus prev n :
  exists tasks' n',
    updateSubtaskStatus clock taskId subtaskId newStatus prev n = Ok tasks' n' /\
    Forall2 (taskUpdated clock taskId subtaskId newStatus) prev tasks'.
Proof.
  apply mapM_Forall2. intros t m _. unfold taskUpdated.
  destruct (bool_decide (Task.id t = taskId)).
  - destruct (mapM_Forall2 (updateSubtask clock subtaskId newStatus)
                (subtaskUpdated clock subtaskId newStatus) (Task.subtasks t)
                (fun st k _ => updateSubtask_spec subtaskId newStatus st k) m)
      as (subs & m' & Hsubs & HF).
    eexists _, m'. rewrite (bind_Ok _ _ _ _ _ Hsubs). split; [done | eauto].
  - by exists t, m.
Qed.

(** The count of a status reaches the length exactly when every subtask
    has it, and is positive exactly when some subtask has it. *)
Lemma countStatus_le s l : (countStatus s l <= length l)%nat.
Proof.
  unfold countStatus. induction l as [|st l IH]; simpl; [lia |].
  destruct (bool_decide (SubTask.status st = s)); simpl; lia.
Qed.

Lemma countStatus_all s l :
  countStatus s l = length l <-> Forall (fun st => SubTask.status st = s) l.
Proof.
  induction l as [|st l IH]; [split; [constructor | done] |].
  unfold countStatus in *. simpl. case_bool_decide as Hs; simpl.
  - rewrite Forall_cons, <- IH. split; [intros [=] | intros []]; auto.
  - pose proof (countStatus_le s l) as Hle. unfold countStatus in Hle.
    split; [lia | by inversion 1].
Qed.

Lemma countStatus_none s l :
  countStatus s l = 0%nat <-> Forall (fun st => SubTask.status st <> s) l.
Proof.
  induction l as [|st l IH]; [split; [constructor | done] |].
  unfold countStatus in *. simpl. case_bool_decide as Hs; simpl.
  - split; [done | by inversion 1].
  - rewrite Forall_cons, <- IH. tauto.
Qed.

(** The derivation rule in terms of the subtasks: completed when all are
    (also when there is none), pending when there is one and none is
    completed or in progress, in progress otherwise. *)
Lemma parentStatus_completed l :
  parentStatus l = Completed <->
  Forall (fun st => SubTask.status st = Completed) l.
Proof.
  rewrite <- countStatus_all. unfold parentStatus.
  destruct (Nat.eqb_spec (countStatus Completed l) (length l)) as [E|E];
    [done |].
  split; [| done]. by destruct (_ || _).
Qed.

Lemma parentStatus_pending l :
  (0 < length l)%nat ->
  parentStatus l = Pending <->
  Forall (fun st => SubTask.status st <> Completed /\
                    SubTask.status st <> InProgress) l.
Proof.
  intros Hlen. rewrite Forall_and, <- !countStatus_none. unfold parentStatus.
  destruct (Nat.eqb_spec (countStatus Completed l) (length l)) as [E|E].
  - split; [done | lia].
  - destruct (Nat.ltb_spec 0 (countStatus InProgress l)),
             (Nat.ltb_spec 0 (countStatus Completed l)); simpl;
      split; try done; lia.
Qed.

Lemma parentStatus_inProgress l :
  (0 < length l)%nat ->
  parentStatus l = InProgress <->
  ~ Forall (fun st => SubTask.status st = Completed) l /\
  ~ Forall (fun st => SubTask.status st <> Completed /\
                      SubTask.status st <> InProgress) l.
Proof.
  intros Hlen.
  rewrite <- parentStatus_completed, <- (parentStatus_pending l Hlen).
  destruct (parentStatus l); split; try done; intros []; congruence.
Qed.

(** A manual toggle of the task is overwritten by the next subtask
    update addressed at it. *)
Lemma updateSubtaskStatus_supersedes taskId subtaskId newStatus manual prev n :
  updateSubtaskStatus clock taskId subtaskId newStatus
    (updateTaskStatus taskId manual prev) n
  = updateSubtaskStatus clock taskId subtaskId newStatus prev n.
Proof.
  unfold updateSubtaskStatus, updateTaskStatus, mapM. rewrite imapM_map.
  apply imapM_ext. intros _ t m _.
  destruct (bool_decide (Task.id t = taskId)) eqn:E; simpl; by rewrite E.
Qed.

Lemma toggleSubtaskAt_step i j tasks s n :
  subtaskStatusAt i j tasks = Some s ->
  exists tasks' n',
    toggleSubtaskAt clock i j tasks n = Ok tasks' n' /\
    subtaskStatusAt i j tasks' = Some (nextStatus s).
Proof.
  unfold subtaskStatusAt, toggleSubtaskAt, onClickSubtask.
  destruct (tasks !! i) as [t|] eqn:Ht; [| done].
  destruct (Task.subtasks t !! j) as [st|] eqn:Hst; [| done].
  intros [= <-].
  destruct (updateSubtaskStatus_spec (Task.id t) (SubTask.id st)
              (nextStatus (SubTask.status st)) tasks n)
    as (tasks' & n' & Hrun & HF).
  exists tasks', n'. split; [done |].
  destruct (Forall2_lookup_l _ _ _ _ _ HF Ht) as (t' & Ht' & Hup).
  rewrite Ht'. unfold taskUpdated in Hup.
  rewrite bool_decide_eq_true_2 in Hup by done.
  destruct Hup as (subs & Hsubs & ->). simpl.
  destruct (Forall2_lookup_l _ _ _ _ _ Hsubs Hst) as (st' & Hst' & Hupst).
  rewrite Hst'. unfold subtaskUpdated in Hupst.
  rewrite bool_decide_eq_true_2 in Hupst by done.
  by destruct Hupst as (m & ->).
Qed.

Lemma toggleTaskAt_step i tasks s :
  taskStatusAt i tasks = Some s ->
  taskStatusAt i (toggleTaskAt i tasks) = Some (nextStatus s).
Proof.
  unfold taskStatusAt, toggleTaskAt, onClickTask, updateTaskStatus.
  destruct (tasks !! i) as [t|] eqn:Ht; [| done]. intros [= <-].
  rewrite list_lookup_fmap, Ht. simpl.
  by rewrite bool_decide_eq_true_2.
Qed.

End Toggles.

(** ** Derived status (C1, C2) *)

(** C1.  A task of the collection that carries the addressed id and has at
    least one subtask comes out of [updateSubtaskStatus] with its subtasks
    updated and with a status that is completed exactly when every subtask
    is completed, pending exactly when no subtask is completed or in
    progress, and in progress otherwise.  The status the task held before
    plays no part: the call gives the same collection after any manual
    toggle of that task. *)
Theorem C1_derived_status clock taskId subtaskId newStatus prev n i t :
  prev !! i = Some t ->
  Task.id t = taskId ->
  (0 < length (Task.subtasks t))%nat ->
  exists tasks' n' t',
    updateSubtaskStatus clock taskId subtaskId newStatus prev n = Ok tasks' n' /\
    tasks' !! i = Some t' /\
    Forall2 (subtaskUpdated clock subtaskId newStatus)
      (Task.subtasks t) (Task.subtasks t') /\
    (Task.status t' = Completed <->
     Forall (fun st => SubTask.status st = Completed) (Task.subtasks t')) /\
    (Task.status t' = Pending <->
     Forall (fun st => SubTask.status st <> Completed /\
                       SubTask.status st <> InProgress) (Task.subtasks t')) /\
    (Task.status t' = InProgress <->
     ~ Forall (fun st => SubTask.status st = Completed) (Task.subtasks t') /\
     ~ Forall (fun st => SubTask.status st <> Completed /\
                         SubTask.status st <> InProgress) (Task.subtasks t')) /\
    forall manual,
      updateSubtaskStatus clock taskId subtaskId newStatus
        (updateTaskStatus taskId manual prev) n = Ok tasks' n'.
Proof.
  intros Ht Hid Hlen.
  destruct (updateSubtaskStatus_spec clock taskId subtaskId newStatus prev n)
    as (tasks' & n' & Hrun & HF).
  destruct (Forall2_lookup_l _ _ _ _ _ HF Ht) as (t' & Ht' & Hup).
  unfold taskUpdated in Hup. rewrite bool_decide_eq_true_2 in Hup by done.
  destruct Hup as (subs & Hsubs & ->).
  assert (0 < length subs)%nat as Hlen'
    by (by rewrite <- (Forall2_length _ _ _ Hsubs)).
  eexists tasks', n', _. simpl.
  split_and!; try done.
  - apply parentStatus_completed.
  - by apply parentStatus_pending.
  - by apply parentStatus_inProgress.
  - intros manual. by rewrite updateSubtaskStatus_supersedes.
Qed.

(** Scenario D of the specification: the other subtask is completed and
    the toggled one goes from pending to in progress. *)
Lemma C1_derived_status_witness :
  exists tasks' n' t',
    updateSubtaskStatus sampleClock "t1" "t1-1" InProgress
      [sampleTask "t1" Completed
         [sampleStep "t1-0" Completed (Some 5); sampleStep "t1-1" Pending None]]
      0%nat = Ok tasks' n' /\
    tasks' !! 0%nat = Some t' /\
    Task.status t' = InProgress.
Proof.
  destruct (C1_derived_status sampleClock "t1" "t1-1" InProgress
              [sampleTask "t1" Completed
                 [sampleStep "t1-0" Completed (Some 5);
                  sampleStep "t1-1" Pending None]]
              0%nat 0%nat _ eq_refl eq_refl ltac:(simpl; lia))
    as (tasks' & n' & t' & Hrun & Ht' & _ & _ & _ & _ & _).
  exists tasks', n', t'. split; [exact Hrun |]. split; [exact Ht' |].
  vm_compute in Hrun. injection Hrun as <- <-.
  vm_compute in Ht'. injection Ht' as <-. reflexivity.
Defined.

(** C2, as the code has it.  [updateSubtaskStatus] addressed at a task
    without subtasks does not keep the status last set on the task: zero
    completed subtasks out of zero count as all of them, and the task comes
    out completed, all its other fields being kept.  A task without
    subtasks that carries another id keeps its status. *)
Theorem C2_empty_task clock taskId subtaskId newStatus prev n i t :
  prev !! i = Some t ->
  Task.subtasks t = [] ->
  exists tasks' n' t',
    updateSubtaskStatus clock taskId subtaskId newStatus prev n = Ok tasks' n' /\
    tasks' !! i = Some t' /\
    sameButStatus t t' /\
    (Task.id t = taskId -> Task.status t' = Completed) /\
    (Task.id t <> taskId -> Task.status t' = Task.status t).
Proof.
  intros Ht Hempty.
  destruct (updateSubtaskStatus_spec clock taskId subtaskId newStatus prev n)
    as (tasks' & n' & Hrun & HF).
  destruct (Forall2_lookup_l _ _ _ _ _ HF Ht) as (t' & Ht' & Hup).
  exists tasks', n', t'. split; [done |]. split; [done |].
  unfold taskUpdated in Hup. rewrite Hempty in Hup.
  destruct (decide (Task.id t = taskId)) as [Hid|Hid].
  - rewrite bool_decide_eq_true_2 in Hup by done.
    destruct Hup as (subs & ->%Forall2_nil_inv_l & ->).
    unfold sameButStatus. simpl. by rewrite Hempty.
  - rewrite bool_decide_eq_false_2 in Hup by done. by subst t'.
Qed.

Lemma C2_empty_task_witness :
  exists tasks' n' t',
    updateSubtaskStatus sampleClock "t1" "t1-0" InProgress
      [sampleTask "t1" Pending []] 0%nat = Ok tasks' n' /\
    tasks' !! 0%nat = Some t' /\
    Task.status t' = Completed.
Proof.
  destruct (C2_empty_task sampleClock "t1" "t1-0" InProgress
              [sampleTask "t1" Pending []] 0%nat 0%nat _ eq_refl eq_refl)
    as (tasks' & n' & t' & Hrun & Ht' & _ & Hs & _).
  exists tasks', n', t'. split; [exact Hrun |]. split; [exact Ht' |].
  exact (Hs eq_refl).
Defined.

(** The claim as written fails: a pending task without subtasks does not
    stay pending when a subtask update is addressed at it. *)
Lemma C2_counterexample :
  Task.subtasks (sampleTask "t1" Pending []) = [] /\
  updateSubtaskStatus sampleClock "t1" "t1-0" InProgress
    [sampleTask "t1" Pending []] 0%nat
  = Ok [sampleTask "t1" Completed []] 0%nat /\
  Task.status (sampleTask "t1" Completed [])
  <> Task.status (sampleTask "t1" Pending []).
Proof. split; [| split]; [reflexivity | reflexivity | discriminate]. Qed.

(** ** Unknown identifiers (C4) *)

Lemma updateTaskStatus_unknown taskId newStatus prev :
  unknownTask taskId prev -> updateTaskStatus taskId newStatus prev = prev.
Proof.
  unfold unknownTask, updateTaskStatus. induction 1 as [|t l Ht _ IH]; simpl;
    [done |].
  by rewrite IH, bool_decide_eq_false_2.
Qed.

Lemma updateSubtaskStatus_unknown_task clock taskId subtaskId newStatus prev n :
  unknownTask taskId prev ->
  updateSubtaskStatus clock taskId subtaskId newStatus prev n = Ok prev n.
Proof.
  intros Hun. apply imapM_id. intros _ t m Ht.
  rewrite bool_decide_eq_false_2; [done |].
  by apply (proj1 (Forall_forall _ _) Hun).
Qed.

Lemma updateSubtask_unknown clock subtaskId newStatus subs n :
  Forall (fun st => SubTask.id st <> subtaskId) subs ->
  mapM (updateSubtask clock subtaskId newStatus) subs n = Ok subs n.
Proof.
  intros Hun. apply imapM_id. intros _ st m Hst. unfold updateSubtask.
  rewrite bool_decide_eq_false_2; [done |].
  by apply (proj1 (Forall_forall _ _) Hun).
Qed.

Lemma updateSubtaskStatus_unknown_subtask clock taskId subtaskId newStatus prev n :
  unknownSubtask taskId subtaskId prev ->
  updateSubtaskStatus clock taskId subtaskId newStatus prev n
  = Ok (map (rederive taskId) prev) n.
Proof.
  intros Hun. apply imapM_pure. intros _ t m Ht. unfold rederive.
  case_bool_decide as Hid; [| done].
  rewrite (bind_Ok _ _ _ _ _
             (updateSubtask_unknown clock subtaskId newStatus _ m
                (proj1 (Forall_forall _ _) Hun t Ht Hid))).
  done.
Qed.

(** C4, as the code has it.  A toggle addressed at a task id that is not in
    the collection returns the collection as it was, for [updateTaskStatus]
    and for [updateSubtaskStatus], and no clock reading is made.  With a
    task id that is present and a subtask id that this task does not have,
    [updateSubtaskStatus] returns as well, every task keeps all its fields
    but the status, the tasks with another id are kept whole, and an
    addressed task with at least one subtask gets the status derived from
    its subtasks. *)
Theorem C4_unknown_identifier clock taskId subtaskId newStatus prev n :
  (unknownTask taskId prev ->
   updateTaskStatus taskId newStatus prev = prev /\
   updateSubtaskStatus clock taskId subtaskId newStatus prev n = Ok prev n) /\
  (unknownSubtask taskId subtaskId prev ->
   exists tasks',
     updateSubtaskStatus clock taskId subtaskId newStatus prev n = Ok tasks' n /\
     Forall2 (fun t t' =>
                sameButStatus t t' /\
                (Task.id t <> taskId -> t' = t) /\
                (Task.id t = taskId -> (0 < length (Task.subtasks t))%nat ->
                 Task.status t' = parentStatus (Task.subtasks t)))
       prev tasks').
Proof.
  split.
  - intros Hun. split.
    + by apply updateTaskStatus_unknown.
    + by apply updateSubtaskStatus_unknown_task.
  - intros Hun. exists (map (rederive taskId) prev). split.
    + by apply updateSubtaskStatus_unknown_subtask.
    + apply Forall2_fmap_r, Forall_Forall2_diag, Forall_forall.
      intros t _. unfold compose, rederive, sameButStatus.
      destruct (decide (Task.id t = taskId)) as [E|E].
      * rewrite bool_decide_eq_true_2 by done. simpl. split_and!; done.
      * rewrite bool_decide_eq_false_2 by done. split_and!; done.
Qed.

Lemma C4_unknown_identifier_witness :
  (updateTaskStatus "gone" Completed [sampleTask "t1" Pending []]
   = [sampleTask "t1" Pending []] /\
   updateSubtaskStatus sampleClock "gone" "t1-0" Completed
     [sampleTask "t1" Pending []] 0%nat
   = Ok [sampleTask "t1" Pending []] 0%nat) /\
  exists tasks',
    updateSubtaskStatus sampleClock "t1" "gone" Completed
      [sampleTask "t1" InProgress [sampleStep "t1-0" InProgress None]] 0%nat
    = Ok tasks' 0%nat.
Proof.
  split.
  - apply (C4_unknown_identifier sampleClock "gone" "t1-0" Completed
             [sampleTask "t1" Pending []] 0%nat).
    repeat constructor. discriminate.
  - destruct (proj2 (C4_unknown_identifier sampleClock "t1" "gone" Completed
             [sampleTask "t1" InProgress [sampleStep "t1-0" InProgress None]]
             0%nat)) as (tasks' & Hrun & _).
    + repeat constructor. discriminate.
    + exists tasks'. exact Hrun.
Defined.

(** The claim as written fails for a subtask id that is not present under
    a task id that is: the task below was set to pending by hand while its
    only subtask is completed, and the stale toggle turns it completed. *)
Lemma C4_counterexample :
  unknownSubtask "t1" "gone" [sampleTask "t1" Pending [sampleStep "t1-0" Completed (Some 5)]] /\
  updateSubtaskStatus sampleClock "t1" "gone" Pending
    [sampleTask "t1" Pending [sampleStep "t1-0" Completed (Some 5)]] 0%nat
  = Ok [sampleTask "t1" Completed [sampleStep "t1-0" Completed (Some 5)]] 0%nat /\
  [sampleTask "t1" Completed [sampleStep "t1-0" Completed (Some 5)]]
  <> [sampleTask "t1" Pending [sampleStep "t1-0" Completed (Some 5)]].
Proof.
  split; [| split].
  - repeat constructor. discriminate.
  - reflexivity.
  - discriminate.
Qed.

(** ** The manual cycle (C6) *)

(** C6.  The click handlers move the status one step along pending, in
    progress, completed, pending.  A manual toggle of the subtask rendered
    at a position returns and leaves that subtask one step further; three
    toggles in a row bring its status back.  The same step is made by a
    manual toggle of a task. *)
Theorem C6_toggle_cycle :
  (nextStatus Pending = InProgress /\ nextStatus InProgress = Completed /\
   nextStatus Completed = Pending) /\
  (forall clock i j tasks s n,
     subtaskStatusAt i j tasks = Some s ->
     exists tasks1 n1,
       toggleSubtaskAt clock i j tasks n = Ok tasks1 n1 /\
       subtaskStatusAt i j tasks1 = Some (nextStatus s)) /\
  (forall clock i j tasks s n,
     subtaskStatusAt i j tasks = Some s ->
     exists tasks3 n3,
       (tasks1 <- toggleSubtaskAt clock i j tasks ;;
        tasks2 <- toggleSubtaskAt clock i j tasks1 ;;
        toggleSubtaskAt clock i j tasks2) n = Ok tasks3 n3 /\
       subtaskStatusAt i j tasks3 = Some s) /\
  (forall i tasks s,
     taskStatusAt i tasks = Some s ->
     taskStatusAt i (toggleTaskAt i tasks) = Some (nextStatus s) /\
     taskStatusAt i (toggleTaskAt i (toggleTaskAt i (toggleTaskAt i tasks)))
     = Some s).
Proof.
  split_and!; try reflexivity.
  - intros clock i j tasks s n Hs. by apply toggleSubtaskAt_step.
  - intros clock i j tasks s n Hs.
    destruct (toggleSubtaskAt_step clock i j tasks s n Hs)
      as (tasks1 & n1 & Hrun1 & Hs1).
    destruct (toggleSubtaskAt_step clock i j tasks1 _ n1 Hs1)
      as (tasks2 & n2 & Hrun2 & Hs2).
    destruct (toggleSubtaskAt_step clock i j tasks2 _ n2 Hs2)
      as (tasks3 & n3 & Hrun3 & Hs3).
    exists tasks3, n3.
    rewrite (bind_Ok _ _ _ _ _ Hrun1), (bind_Ok _ _ _ _ _ Hrun2).
    split; [done |]. rewrite Hs3. by destruct s.
  - intros i tasks s Hs.
    pose proof (toggleTaskAt_step i tasks s Hs) as H1.
    pose proof (toggleTaskAt_step i _ _ H1) as H2.
    pose proof (toggleTaskAt_step i _ _ H2) as H3.
    split; [done |]. rewrite H3. by destruct s.
Qed.

Lemma C6_toggle_cycle_witness :
  exists tasks3 n3,
    (tasks1 <- toggleSubtaskAt sampleClock 0 1
                 [sampleTask "t1" Pending
                    [sampleStep "t1-0" Completed (Some 5);
                     sampleStep "t1-1" InProgress None]] ;;
     tasks2 <- toggleSubtaskAt sampleClock 0 1 tasks1 ;;
     toggleSubtaskAt sampleClock 0 1 tasks2) 0%nat = Ok tasks3 n3 /\
    subtaskStatusAt 0 1 tasks3 = Some InProgress.
Proof.
  apply (proj1 (proj2 (proj2 C6_toggle_cycle)) sampleClock 0%nat 1%nat
           [sampleTask "t1" Pending
              [sampleStep "t1-0" Completed (Some 5);
               sampleStep "t1-1" InProgress None]] InProgress 0%nat).
  reflexivity.
Defined.

(** ** The builder, equationally *)

Lemma prop_field k v : v <> JNull -> prop k v = inr (field k v).
Proof. by destruct v. Qed.

Lemma truthy_not_null v : truthy (Some v) = true -> v <> JNull.
Proof. by destruct v. Qed.

Section Builder.

Variable clock : nat -> Z.

Lemma lowerOr_eq v dflt n :
  lowerOr v dflt n
  = if lowerable v then Ok (lowered v dflt) n else Throw TypeError.
Proof.
  unfold lowerOr, lowerable, lowered.
  destruct (truthy v) eqn:Hv; simpl.
  - destruct v as [[]|]; simpl in *; done.
  - destruct v as [[]|]; simpl in *; done.
Qed.

Lemma buildSubtask_eq index subIndex step n :
  buildSubtask clock index subIndex step n
  = if stepOk step
    then Ok (builtSubtask clock index subIndex step n)
           (if bool_decide (lowered (field "status" step) "pending" = "completed")
            then S (S n) else S n)
    else Throw TypeError.
Proof.
  unfold buildSubtask, stepOk, builtSubtask.
  assert (step = JNull \/ step <> JNull) as [->|Hnn]
    by (destruct step; auto); [done |].
  rewrite !(prop_field _ _ Hnn). unfold lift at 1. unfold bind at 1. unfold ret at 1.
  unfold bind at 1. rewrite lowerOr_eq.
  replace (match step with JNull => false | _ => lowerable (field "status" step) end)
    with (lowerable (field "status" step)) by (by destruct step).
  destruct (lowerable (field "status" step)); [| done].
  cbn. by destruct (bool_decide _).
Qed.

Lemma buildSubtask_Ok_inv index subIndex step n st n' :
  buildSubtask clock index subIndex step n = Ok st n' ->
  stepOk step = true /\ st = builtSubtask clock index subIndex step n.
Proof.
  rewrite buildSubtask_eq. destruct (stepOk step); [| done].
  by intros [= <- _].
Qed.

Lemma buildTask_eq index r n :
  buildTask clock index r n
  = if validRecord r
    then match imapM (buildSubtask clock index) 0%nat
                 (arrayItems (field "steps" r)) n with
         | Ok subtasks n1 =>
             if lowerable (field "priority" r) && lowerable (field "status" r)
             then Ok (Some (builtTask clock index r subtasks n1)) (S (S n1))
             else Throw TypeError
         | Throw e => Throw e
         end
    else Ok None n.
Proof.
  unfold buildTask, validRecord, builtTask.
  destruct (truthy (Some r)) eqn:Hr; simpl; [| done].
  rewrite !(prop_field _ _ (truthy_not_null _ Hr)).
  unfold lift, bind, ret.
  destruct (truthy (field "title" r)); simpl; [| done].
  destruct (isArray (field "steps" r)); simpl; [| done].
  destruct (imapM _ _ _ n) as [subtasks n1|e]; [| done].
  rewrite lowerOr_eq.
  destruct (lowerable (field "priority" r)); simpl; [| done].
  rewrite lowerOr_eq.
  destruct (lowerable (field "status" r)); simpl; done.
Qed.

Lemma buildTask_dropped index r n :
  validRecord r = false -> buildTask clock index r n = Ok None n.
Proof. intros H. by rewrite buildTask_eq, H. Qed.

End Builder.

(** ** Normalisation of priority, status and step titles (C7) *)

Lemma toLowerCase_idemp s : toLowerCase (toLowerCase s) = toLowerCase s.
Proof.
  induction s as [|c s IH]; simpl; [done |]. rewrite IH. f_equal.
  by destruct c as [[] [] [] [] [] [] [] []].
Qed.

Lemma priorityOf_lowered v :
  priorityOf (lowered v "medium") = matchPriority v.
Proof.
  unfold lowered, matchPriority, priorityOf, sameIgnoringCase.
  destruct v as [[| | |s| |]|]; try done.
  change (toLowerCase "high") with "high".
  change (toLowerCase "medium") with "medium".
  change (toLowerCase "low") with "low".
  destruct (truthy (Some (JStr s))) eqn:Hs.
  - repeat case_bool_decide; congruence.
  - simpl in Hs. apply negb_false_iff, bool_decide_eq_true in Hs. by subst s.
Qed.

Lemma statusOf_lowered v :
  statusOf (lowered v "pending") = matchStatus v.
Proof.
  unfold lowered, matchStatus, statusOf, sameIgnoringCase.
  destruct v as [[| | |s| |]|]; try done.
  change (toLowerCase "completed") with "completed".
  change (toLowerCase "in-progress") with "in-progress".
  destruct (truthy (Some (JStr s))) eqn:Hs.
  - repeat case_bool_decide; congruence.
  - simpl in Hs. apply negb_false_iff, bool_decide_eq_true in Hs. by subst s.
Qed.

(** C7.  When the builder turns a record into a task, the task's priority
    is the record's priority matched without regard to case against high,
    medium and low, and medium for anything else or nothing; the status of
    the task and of each subtask is the corresponding status matched
    against completed and in-progress, and pending for anything else or
    nothing; the subtasks are the steps in order, and a step without a
    step field is titled Step i+1 at zero-based position i. *)
Theorem C7_normalisation clock index r n task n' :
  buildTask clock index r n = Ok (Some task) n' ->
  Task.priority task = matchPriority (field "priority" r) /\
  Task.status task = matchStatus (field "status" r) /\
  length (Task.subtasks task) = length (arrayItems (field "steps" r)) /\
  forall i step,
    arrayItems (field "steps" r) !! i = Some step ->
    exists st,
      Task.subtasks task !! i = Some st /\
      SubTask.status st = matchStatus (field "status" step) /\
      (field "step" step = None ->
       SubTask.title st = JStr ("Step " +:+ pretty (i + 1)%nat)).
Proof.
  rewrite buildTask_eq. destruct (validRecord r); [| done].
  destruct (imapM _ _ _ n) as [subtasks n1|e] eqn:Hsubs; [| done].
  destruct (_ && _); [| done]. intros [= <- _].
  destruct (imapM_Ok_inv _ _ _ _ _ _ Hsubs) as [Hlen Hpos].
  unfold builtTask. simpl. split_and!.
  - apply priorityOf_lowered.
  - apply statusOf_lowered.
  - done.
  - intros i step Hstep.
    destruct (Hpos i step Hstep) as (st & m & m' & Hst & Hbuild).
    apply buildSubtask_Ok_inv in Hbuild as [_ ->].
    exists (builtSubtask clock index i step m). split_and!; [done | |].
    + apply statusOf_lowered.
    + simpl. by intros ->.
Qed.

Lemma C7_normalisation_witness :
  exists task n',
    buildTask sampleClock 0 sampleRecord 0%nat = Ok (Some task) n' /\
    Task.priority task = High /\
    Task.status task = InProgress /\
    (SubTask.status <$> Task.subtasks task) = [Completed; Pending] /\
    (SubTask.title <$> Task.subtasks task) = [JStr "Backup"; JStr "Step 2"].
Proof.
  destruct (buildTask sampleClock 0 sampleRecord 0%nat) as [[task|] n'|e] eqn:Hrun;
    try (vm_compute in Hrun; discriminate).
  exists task, n'. split; [reflexivity |].
  destruct (C7_normalisation sampleClock 0%nat sampleRecord 0%nat task n' Hrun)
    as (Hp & Hs & _ & _).
  split; [exact Hp |]. split; [exact Hs |].
  vm_compute in Hrun. injection Hrun as <- <-. split; reflexivity.
Defined.

(** ** Dropped records (C8) *)

Section Records.

Variable clock : nat -> Z.

Lemma buildSubtasks_total index steps :
  forallb stepOk steps = true ->
  forall i n, exists subtasks n',
      imapM (buildSubtask clock index) i steps n = Ok subtasks n'.
Proof.
  intros Hok. apply imapM_total. intros i step n Hstep.
  rewrite buildSubtask_eq.
  rewrite (proj1 (forallb_forall _ _) Hok step); [eauto |].
  by apply list_elem_of_In.
Qed.

Lemma buildTask_kept index r n :
  validRecord r = true -> buildable r = true ->
  exists t n', buildTask clock index r n = Ok (Some t) n' /\
               Some (Task.title t) = field "title" r.
Proof.
  unfold buildable. intros Hvalid Hb.
  apply andb_prop in Hb as [Hb Hs]. apply andb_prop in Hb as [Hsteps Hp].
  destruct (buildSubtasks_total index _ Hsteps 0%nat n) as (subtasks & n1 & Hsubs).
  rewrite buildTask_eq, Hvalid, Hsubs, Hp, Hs. simpl.
  eexists _, _. split; [done |].
  unfold validRecord in Hvalid.
  apply andb_prop in Hvalid as [Hvalid _]. apply andb_prop in Hvalid as [_ Ht].
  unfold builtTask, orElse. simpl.
  destruct (field "title" r) as [j|]; [| done]. by rewrite Ht.
Qed.

Lemma buildTasks_kept records :
  Forall (fun r => validRecord r = true -> buildable r = true) records ->
  forall i n, exists newTasks n',
      imapM (buildTask clock) i records n = Ok newTasks n' /\
      Forall2 (taskOf clock) (List.filter validRecord records) (nonNull newTasks).
Proof.
  induction 1 as [|r records Hr _ IH]; intros i n; simpl.
  - exists [], n. split; [done | constructor].
  - destruct (validRecord r) eqn:Hvalid.
    + destruct (buildTask_kept i r n Hvalid (Hr eq_refl))
        as (t & n1 & Hbuild & Htitle).
      destruct (IH (S i) n1) as (newTasks & n2 & Hrest & HF).
      exists (Some t :: newTasks), n2.
      rewrite (bind_Ok _ _ _ _ _ Hbuild), (bind_Ok _ _ _ _ _ Hrest).
      split; [done |]. constructor; [| done].
      split; [by exists i, n, n1 | done].
    + destruct (IH (S i) n) as (newTasks & n2 & Hrest & HF).
      exists (None :: newTasks), n2.
      rewrite (bind_Ok _ _ _ _ _ (buildTask_dropped clock i r n Hvalid)).
      by rewrite (bind_Ok _ _ _ _ _ Hrest).
Qed.

(** Whatever the records are, a returned map holds one task per kept
    record, in order, and a raised exception comes from a kept record whose
    build does not return: never from a dropped one. *)
Lemma buildTasks_outcome records :
  forall i n,
    match imapM (buildTask clock) i records n with
    | Ok newTasks _ =>
        Forall2 (taskOf clock) (List.filter validRecord records) (nonNull newTasks)
    | Throw _ =>
        Exists (fun r => validRecord r = true /\ buildable r = false) records
    end.
Proof.
  induction records as [|r records IH]; intros i n; simpl; [constructor |].
  unfold bind at 1. destruct (buildTask clock i r n) as [o n1|e] eqn:Hbuild.
  - specialize (IH (S i) n1). unfold bind at 1.
    destruct (imapM _ _ records n1) as [rest n2|e]; [| by apply Exists_cons_tl].
    unfold ret. destruct (validRecord r) eqn:Hvalid.
    + rewrite buildTask_eq, Hvalid in Hbuild.
      destruct (imapM _ _ _ n) as [subtasks m|e] eqn:Hsubs; [| done].
      destruct (_ && _) eqn:Hl; [| done]. injection Hbuild as <- <-.
      constructor; [| done]. split.
      * exists i, n, (S (S m)). by rewrite buildTask_eq, Hvalid, Hsubs, Hl.
      * unfold validRecord in Hvalid.
        apply andb_prop in Hvalid as [Hvalid _].
        apply andb_prop in Hvalid as [_ Ht].
        unfold builtTask, orElse. simpl.
        destruct (field "title" r) as [j|]; [| done]. by rewrite Ht.
    + rewrite (buildTask_dropped clock i r n Hvalid) in Hbuild.
      by injection Hbuild as <- <-.
  - apply Exists_cons_hd. destruct (validRecord r) eqn:Hvalid.
    + split; [done |]. destruct (buildable r) eqn:Hb; [| done].
      destruct (buildTask_kept i r n Hvalid Hb) as (t & n1 & Hk & _).
      congruence.
    + by rewrite (buildTask_dropped clock i r n Hvalid) in Hbuild.
Qed.

End Records.

Lemma validRecord_no_title r : field "title" r = None -> validRecord r = false.
Proof.
  unfold validRecord. intros ->. simpl. by rewrite andb_false_r.
Qed.

Lemma validRecord_steps_not_array r :
  isArray (field "steps" r) = false -> validRecord r = false.
Proof. unfold validRecord. intros ->. by rewrite andb_false_r. Qed.

(** A single object answers like the array that holds only it, and an
    array that starts with a falsy item leaves the empty collection. *)
Lemma fetchUpdates_single clock data prev n :
  truthy (Some data) = true -> isArray (Some data) = false ->
  fetchUpdates clock data prev n = fetchUpdates clock (JArr [data]) prev n.
Proof. unfold fetchUpdates. by intros -> ->. Qed.

Lemma fetchUpdates_falsy_head clock r records prev n :
  truthy (Some r) = false ->
  fetchUpdates clock (JArr (r :: records)) prev n = Ok [] n.
Proof.
  intros Hr. unfold fetchUpdates.
  change (truthy (Some (JArr (r :: records)))) with true.
  change (isArray (Some (JArr (r :: records)))) with true.
  change (arrayItems (Some (JArr (r :: records)))) with (r :: records).
  cbv beta iota zeta.
  change ((r :: records) !! 0%nat) with (Some r). rewrite Hr.
  by rewrite andb_false_r.
Qed.

(** On an array that is empty, or starts with a truthy item, the fetch is
    the map followed by the filter. *)
Lemma fetchUpdates_array clock records prev n :
  (records <> [] -> truthy (records !! 0%nat) = true) ->
  fetchUpdates clock (JArr records) prev n
  = (newTasks <- imapM (buildTask clock) 0%nat records ;;
     ret (nonNull newTasks)) n.
Proof.
  intros Hhead. unfold fetchUpdates.
  change (truthy (Some (JArr records))) with true.
  change (isArray (Some (JArr records))) with true.
  change (arrayItems (Some (JArr records))) with records.
  cbv beta iota zeta.
  destruct records as [|r records]; [done |].
  rewrite (Hhead ltac:(done)).
  by change (0 <? length (r :: records))%nat with true.
Qed.

(** C8.  A record without a title field, or whose steps are not an array,
    makes the map callback return its null without raising and without
    reading the clock, and the filter removes it.  For an array of records
    that the fetch accepts (it is empty or starts with a truthy item), the
    collection the fetch leaves holds exactly one task per kept record
    (truthy title, array steps), in the order of the records, whatever the
    dropped records contain; the fetch can only raise in a kept record
    whose steps, status or priority the builder cannot read, and it returns
    when there is none. *)
Theorem C8_invalid_records_dropped clock records prev n :
  (forall index r m,
     field "title" r = None \/ isArray (field "steps" r) = false ->
     buildTask clock index r m = Ok None m) /\
  ((records <> [] -> truthy (records !! 0%nat) = true) ->
   match fetchUpdates clock (JArr records) prev n with
   | Ok tasks _ =>
       Forall2 (taskOf clock) (List.filter validRecord records) tasks
   | Throw _ =>
       Exists (fun r => validRecord r = true /\ buildable r = false) records
   end /\
   (Forall (fun r => validRecord r = true -> buildable r = true) records ->
    exists tasks n',
      fetchUpdates clock (JArr records) prev n = Ok tasks n' /\
      Forall2 (taskOf clock) (List.filter validRecord records) tasks)).
Proof.
  split.
  - intros index r m [H|H]; apply buildTask_dropped;
      [by apply validRecord_no_title | by apply validRecord_steps_not_array].
  - intros Hhead. rewrite (fetchUpdates_array clock records prev n Hhead).
    split.
    + pose proof (buildTasks_outcome clock records 0%nat n) as H.
      unfold bind. by destruct (imapM _ _ records n).
    + intros Hb.
      destruct (buildTasks_kept clock records Hb 0%nat n)
        as (newTasks & n' & Hrun & HF).
      exists (nonNull newTasks), n'. split; [| done].
      by rewrite (bind_Ok _ _ _ _ _ Hrun).
Qed.

Lemma C8_invalid_records_dropped_witness :
  exists tasks n',
    fetchUpdates sampleClock (JArr sampleRecords) [] 0%nat = Ok tasks n' /\
    Forall2 (taskOf sampleClock) [sampleRecord; JObj [("title", JStr "Rotate keys"); ("steps", JArr [])]] tasks.
Proof.
  apply (proj2 (C8_invalid_records_dropped sampleClock sampleRecords [] 0%nat)).
  - intros _. reflexivity.
  - repeat (constructor;
            [first [ intros _; reflexivity
                   | intros H; vm_compute in H; discriminate H ] |]).
    constructor.
Defined.

(** ** Identifiers of one build pass (C9) *)

Lemma fields_not_nil s : fields s <> [].
Proof.
  induction s as [|c r IH]; simpl; [done |].
  destruct (Ascii.eqb c "-"); [done |]. by destruct (fields r).
Qed.

Lemma fields_app_dash a b : fields (a +:+ "-" +:+ b) = (fields a ++ fields b)%list.
Proof.
  induction a as [|c r IH]; simpl; [done |].
  destruct (Ascii.eqb c "-"); simpl; [by rewrite <- IH |].
  change (r +:+ String "-" b) with (r +:+ "-" +:+ b). rewrite IH.
  pose proof (fields_not_nil r). by destruct (fields r).
Qed.

Lemma fields_noDash s : noDash s = true -> fields s = [s].
Proof.
  induction s as [|c r IH]; simpl; [done |].
  destruct (Ascii.eqb c "-"); simpl; [done |]. by intros ->%IH.
Qed.

Lemma pretty_N_char_noDash x : Ascii.eqb (pretty_N_char x) "-" = false.
Proof. unfold pretty_N_char. by repeat case_match. Qed.

Lemma pretty_N_go_noDash x s :
  noDash s = true -> noDash (pretty_N_go x s) = true.
Proof.
  revert s. induction (N.lt_wf_0 x) as [x _ IH]; intros s Hs.
  assert (x = 0 \/ 0 < x)%N as [->|Hx] by lia; [done |].
  rewrite pretty_N_go_step by done. apply IH; [by apply N.div_lt |].
  simpl. by rewrite pretty_N_char_noDash.
Qed.

Lemma pretty_N_go_not_empty x s :
  s <> EmptyString -> pretty_N_go x s <> EmptyString.
Proof.
  revert s. induction (N.lt_wf_0 x) as [x _ IH]; intros s Hs.
  assert (x = 0 \/ 0 < x)%N as [->|Hx] by lia; [done |].
  rewrite pretty_N_go_step by done. apply IH; [by apply N.div_lt | done].
Qed.

Lemma pretty_N_digits (x : N) :
  noDash (pretty x) = true /\ pretty x <> EmptyString.
Proof.
  unfold pretty, pretty_N. case_decide as Hx; [done |]. split.
  - by apply pretty_N_go_noDash.
  - assert (0 < x)%N as Hpos by lia.
    rewrite pretty_N_go_step by done. by apply pretty_N_go_not_empty.
Qed.

Lemma fields_pretty_nat (i : nat) : fields (pretty i) = [pretty i].
Proof. apply fields_noDash, (pretty_N_digits (N.of_nat i)). Qed.

(** A time stamp prints as one piece of digits, or as an empty piece (before
    its sign) and one more. *)
Lemma fields_pretty_Z (z : Z) :
  (fields (pretty z) = [pretty z] /\ pretty z <> EmptyString) \/
  (exists d, fields (pretty z) = [EmptyString; d]).
Proof.
  destruct z as [|p|p].
  - by left.
  - left. destruct (pretty_N_digits (N.pos p)) as [Hd Hne].
    split; [by apply fields_noDash | done].
  - right. exists (pretty (N.pos p)).
    change (pretty (Z.neg p)) with (EmptyString +:+ "-" +:+ pretty (N.pos p)).
    rewrite fields_app_dash. simpl. f_equal.
    apply fields_noDash, (pretty_N_digits (N.pos p)).
Qed.

Lemma fields_taskId stamp index :
  fields (taskId stamp index) = (fields (pretty stamp) ++ [pretty index])%list.
Proof. unfold taskId. by rewrite fields_app_dash, fields_pretty_nat. Qed.

Lemma fields_subtaskId stamp index subIndex :
  fields (subtaskId stamp index subIndex)
  = (fields (pretty stamp) ++ [pretty index; pretty subIndex])%list.
Proof.
  unfold subtaskId. by rewrite !fields_app_dash, !fields_pretty_nat.
Qed.

(** The positions can be read back from an identifier, and a task
    identifier is never a subtask identifier. *)
Lemma taskId_inj stamp index stamp' index' :
  taskId stamp index = taskId stamp' index' -> index = index'.
Proof.
  intros H%(f_equal fields). rewrite !fields_taskId in H.
  apply app_inj_2 in H as [_ [= H]]; [| done]. by apply (inj pretty).
Qed.

Lemma subtaskId_inj stamp index subIndex stamp' index' subIndex' :
  subtaskId stamp index subIndex = subtaskId stamp' index' subIndex' ->
  index = index' /\ subIndex = subIndex'.
Proof.
  intros H%(f_equal fields). rewrite !fields_subtaskId in H.
  apply app_inj_2 in H as [_ [= H1 H2]]; [| done].
  split; by apply (inj pretty).
Qed.

Lemma taskId_not_subtaskId stamp index stamp' index' subIndex' :
  taskId stamp index <> subtaskId stamp' index' subIndex'.
Proof.
  intros H%(f_equal fields). rewrite fields_taskId, fields_subtaskId in H.
  destruct (fields_pretty_Z stamp) as [[Hs _]|[d Hs]],
           (fields_pretty_Z stamp') as [[Hs' Hne]|[d' Hs']];
    rewrite Hs, Hs' in H; simplify_eq/=.
Qed.

Lemma idAt_inj s index index' : idAt index s -> idAt index' s -> index = index'.
Proof.
  intros [[a ->]|(a & j & ->)] [[b H]|(b & k & H)].
  - by apply taskId_inj in H.
  - by apply taskId_not_subtaskId in H.
  - symmetry in H. by apply taskId_not_subtaskId in H.
  - by apply subtaskId_inj in H as [? _].
Qed.

Lemma imapM_Ok_lookup {A B} (f : nat -> A -> M B) l i n ys n' k y :
  imapM f i l n = Ok ys n' -> ys !! k = Some y ->
  exists x m m', l !! k = Some x /\ f (i + k)%nat x m = Ok y m'.
Proof.
  intros Hrun Hy. destruct (imapM_Ok_inv f l i n ys n' Hrun) as [Hlen Hpos].
  destruct (lookup_lt_is_Some_2 l k) as [x Hx].
  { rewrite <- Hlen. by apply lookup_lt_Some in Hy. }
  destruct (Hpos k x Hx) as (y' & m & m' & Hy' & Hf).
  exists x, m, m'. by simplify_eq.
Qed.

Section Identifiers.

Variable clock : nat -> Z.

Lemma builtSubtasks_ids index steps n subtasks n' :
  imapM (buildSubtask clock index) 0%nat steps n = Ok subtasks n' ->
  forall j st, subtasks !! j = Some st ->
               exists stamp, SubTask.id st = subtaskId stamp index j.
Proof.
  intros Hrun j st Hst.
  destruct (imapM_Ok_lookup _ _ _ _ _ _ _ _ Hrun Hst) as (step & m & m' & _ & Hb).
  apply buildSubtask_Ok_inv in Hb as [_ ->]. by exists (clock m).
Qed.

(** The identifiers of one built task: all made for its position, and
    distinct. *)
Lemma builtTask_ids index r n t n' :
  buildTask clock index r n = Ok (Some t) n' ->
  NoDup (taskIds t) /\ Forall (idAt index) (taskIds t).
Proof.
  rewrite buildTask_eq. destruct (validRecord r); [| done].
  destruct (imapM _ _ _ n) as [subtasks n1|e] eqn:Hsubs; [| done].
  destruct (_ && _); [| done]. intros [= <- _].
  pose proof (builtSubtasks_ids _ _ _ _ _ Hsubs) as Hids.
  unfold taskIds, builtTask. simpl. split.
  - apply NoDup_cons. split.
    + intros (st & Hid & Hst)%list_elem_of_fmap.
      apply list_elem_of_lookup in Hst as [j Hj].
      destruct (Hids j st Hj) as [stamp Hst]. rewrite Hst in Hid.
      by apply taskId_not_subtaskId in Hid.
    + apply NoDup_alt. intros j k s Hj Hk.
      rewrite list_lookup_fmap in Hj, Hk.
      destruct (subtasks !! j) as [st|] eqn:Hst; [| done].
      destruct (subtasks !! k) as [st'|] eqn:Hst'; [| done].
      destruct (Hids j st Hst) as [a Ha], (Hids k st' Hst') as [b Hb].
      simpl in Hj, Hk. injection Hj as <-. injection Hk as Hk.
      rewrite Ha, Hb in Hk. by apply subtaskId_inj in Hk as [_ ?].
  - apply Forall_cons. split; [left; eauto |].
    apply Forall_forall. intros s (st & -> & Hst)%list_elem_of_fmap.
    apply list_elem_of_lookup in Hst as [j Hj].
    destruct (Hids j st Hj) as [stamp Hst]. right. eauto.
Qed.

(** The identifiers of the tasks built from position [i] on. *)
Lemma buildTasks_ids records :
  forall i n newTasks n',
    imapM (buildTask clock) i records n = Ok newTasks n' ->
    NoDup (allIds (nonNull newTasks)) /\
    Forall (fun s => exists index, (i <= index)%nat /\ idAt index s)
      (allIds (nonNull newTasks)).
Proof.
  induction records as [|r records IH]; intros i n newTasks n' Hrun;
    simpl in Hrun.
  - injection Hrun as <- <-. split; [constructor | constructor].
  - apply bind_Ok_inv in Hrun as (o & n1 & Hbuild & Hrun).
    apply bind_Ok_inv in Hrun as (rest & n2 & Hrest & Hrun).
    injection Hrun as <- <-.
    destruct (IH _ _ _ _ Hrest) as [Hnd Hat].
    assert (Forall (fun s => exists index, (i <= index)%nat /\ idAt index s)
              (allIds (nonNull rest))) as Hat'.
    { eapply Forall_impl; [exact Hat |]. intros s (k & Hk & Hs).
      exists k. split; [lia | done]. }
    destruct o as [t|]; [| done].
    destruct (builtTask_ids _ _ _ _ _ Hbuild) as [Hndt Hatt].
    change (allIds (nonNull (Some t :: rest)))
      with (taskIds t ++ allIds (nonNull rest))%list.
    split.
    + apply NoDup_app. split; [done |]. split; [| done].
      intros s Hs Hs'.
      pose proof (proj1 (Forall_forall _ _) Hatt s Hs) as Hi.
      destruct (proj1 (Forall_forall _ _) Hat s Hs') as (k & Hk & Hsk).
      pose proof (idAt_inj s i k Hi Hsk). lia.
    + apply Forall_app. split; [| done].
      eapply Forall_impl; [exact Hatt |]. intros s Hs. by exists i.
Qed.

End Identifiers.

(** C9.  In the collection that a build pass of [fetchUpdates] leaves, no
    identifier occurs twice: the list of every task identifier and every
    subtask identifier has no duplicates, so task identifiers differ from
    each other, subtask identifiers differ from each other within and
    across tasks, and no task identifier is a subtask identifier. *)
Theorem C9_identifiers_distinct clock data prev n tasks n' :
  truthy (Some data) = true ->
  fetchUpdates clock data prev n = Ok tasks n' ->
  NoDup (allIds tasks).
Proof.
  intros Hdata. unfold fetchUpdates. rewrite Hdata.
  cbv zeta. destruct (_ && _).
  - intros (newTasks & n1 & Hrun & [= <- _])%bind_Ok_inv.
    by apply (buildTasks_ids clock _ _ _ _ _ Hrun).
  - intros [= <- _]. constructor.
Qed.

Lemma C9_identifiers_distinct_witness :
  exists tasks n',
    fetchUpdates sampleClock (JArr sampleRecords) [] 0%nat = Ok tasks n' /\
    allIds tasks = ["1700000000003-1"; "1700000000000-1-0";
                    "1700000000002-1-1"; "1700000000005-3"] /\
    NoDup (allIds tasks).
Proof.
  destruct (fetchUpdates sampleClock (JArr sampleRecords) [] 0%nat)
    as [tasks n'|e] eqn:Hrun; [| vm_compute in Hrun; discriminate Hrun].
  exists tasks, n'. split; [reflexivity |]. split.
  - vm_compute in Hrun. injection Hrun as <- <-. reflexivity.
  - exact (C9_identifiers_distinct sampleClock (JArr sampleRecords) [] 0%nat
             tasks n' eq_refl Hrun).
Defined.

(** ** completedAt and status (C3) *)

(** With a callback that never turns the clock back, the readings made for
    each position lie within those of the whole map. *)
Lemma imapM_Ok_inv_mono {A B} (f : nat -> A -> M B) l :
  (forall i x m y m', f i x m = Ok y m' -> (m <= m')%nat) ->
  forall i n ys n', imapM f i l n = Ok ys n' ->
  (n <= n')%nat /\
  forall k y, ys !! k = Some y ->
    exists x m m', l !! k = Some x /\ f (i + k)%nat x m = Ok y m' /\
                   (n <= m)%nat /\ (m' <= n')%nat.
Proof.
  intros Hmono. induction l as [|x l IH]; intros i n ys n' H; simpl in H.
  - injection H as <- <-. split; [lia | intros k y Hk; by destruct k].
  - apply bind_Ok_inv in H as (y & n1 & Hy & H).
    apply bind_Ok_inv in H as (ys' & n2 & Hys & H).
    injection H as <- <-. destruct (IH _ _ _ _ Hys) as [Hle Hpos].
    pose proof (Hmono _ _ _ _ _ Hy) as Hle1.
    split; [lia |]. intros [|k] z Hk; simpl in Hk.
    + injection Hk as <-. exists x, n, n1.
      rewrite Nat.add_0_r. split_and!; [done | done | lia | lia].
    + destruct (Hpos k z Hk) as (x' & m & m' & Hx' & Hf & Hm & Hm').
      exists x', m, m'. replace (i + S k)%nat with (S i + k)%nat by lia.
      split_and!; [done | done | lia | lia].
Qed.

Section Consistency.

Variable clock : nat -> Z.

Lemma updateSubtask_Ok subtaskId newStatus st n st' n' :
  updateSubtask clock subtaskId newStatus st n = Ok st' n' ->
  (n <= n')%nat /\
  SubTask.id st' = SubTask.id st /\
  (SubTask.id st <> subtaskId -> st' = st) /\
  (SubTask.id st = subtaskId ->
   SubTask.status st' = newStatus /\
   (newStatus = Completed ->
    SubTask.completedAt st' = Some (clock n) /\ n' = S n) /\
   (newStatus <> Completed -> SubTask.completedAt st' = None)).
Proof.
  unfold updateSubtask. case_bool_decide as Hid.
  - case_bool_decide as Hs; cbn; intros [= <- <-]; simpl;
      split_and!; try done; lia.
  - intros [= <- <-]. split_and!; try done; lia.
Qed.

(** What [updateSubtaskStatus] leaves in an addressed subtask: the new
    status, and a [completedAt] that is a clock reading of this very call
    when the new status is completed, and nothing otherwise. *)
Lemma updateSubtaskStatus_stamps taskId subtaskId newStatus prev n tasks' n' :
  updateSubtaskStatus clock taskId subtaskId newStatus prev n = Ok tasks' n' ->
  forall t st,
    t ∈ tasks' -> Task.id t = taskId ->
    st ∈ Task.subtasks t -> SubTask.id st = subtaskId ->
    SubTask.status st = newStatus /\
    (newStatus = Completed ->
     exists m, (n <= m < n')%nat /\ SubTask.completedAt st = Some (clock m)) /\
    (newStatus <> Completed -> SubTask.completedAt st = None).
Proof.
  intros Hrun t st Ht Hid Hst Hsid.
  assert (forall m subs subs' m',
            mapM (updateSubtask clock subtaskId newStatus) subs m = Ok subs' m' ->
            (m <= m')%nat /\
            forall k y, subs' !! k = Some y ->
              exists x a b, subs !! k = Some x /\
                updateSubtask clock subtaskId newStatus x a = Ok y b /\
                (m <= a)%nat /\ (b <= m')%nat) as Hinner.
  { intros m subs subs' m' H.
    apply (imapM_Ok_inv_mono (fun _ => updateSubtask clock subtaskId newStatus)
             subs) in H; [done |].
    intros _ x a y b Hx. by apply updateSubtask_Ok in Hx as [? _]. }
  apply (imapM_Ok_inv_mono _ prev) in Hrun as [_ Hpos].
  - apply list_elem_of_lookup in Ht as [i Hi].
    destruct (Hpos i t Hi) as (t0 & a & b & _ & Ht0 & Ha & Hb).
    case_bool_decide as Hid0.
    + apply bind_Ok_inv in Ht0 as (subs' & c & Hsubs & [= <- <-]).
      simpl in Hst. apply list_elem_of_lookup in Hst as [j Hj].
      destruct (Hinner _ _ _ _ Hsubs) as [_ Hsub].
      destruct (Hsub j st Hj) as (st0 & a' & b' & _ & Hup & Ha' & Hb').
      apply updateSubtask_Ok in Hup as (_ & Hsame & _ & Hup).
      destruct (Hup ltac:(congruence)) as (Hs & Hc & Hnc).
      split_and!; [done | | done].
      intros Hcompleted. destruct (Hc Hcompleted) as [Hat ->].
      exists a'. split; [lia | done].
    + injection Ht0 as <- <-. congruence.
  - intros _ t0 a y b. case_bool_decide.
    + intros (subs' & c & Hsubs & [= <- <-])%bind_Ok_inv.
      by apply Hinner in Hsubs as [? _].
    + intros [= <- <-]. lia.
Qed.

Lemma subtaskUpdated_consistent subtaskId newStatus st st' :
  subtaskUpdated clock subtaskId newStatus st st' ->
  subtaskConsistent st -> subtaskConsistent st'.
Proof.
  unfold subtaskUpdated, subtaskConsistent. case_bool_decide; [| by intros ->].
  intros [m ->] _. simpl. case_bool_decide as Hs; split; done.
Qed.

Lemma updateSubtaskStatus_consistent taskId subtaskId newStatus prev n tasks' n' :
  updateSubtaskStatus clock taskId subtaskId newStatus prev n = Ok tasks' n' ->
  consistent prev -> consistent tasks'.
Proof.
  intros Hrun Hprev.
  destruct (updateSubtaskStatus_spec clock taskId subtaskId newStatus prev n)
    as (tasks & m & Hrun' & HF).
  rewrite Hrun in Hrun'. injection Hrun' as <- <-. clear Hrun.
  unfold consistent in *. revert Hprev.
  induction HF as [|t t' l l' Hup _ IH]; intros Hprev; [constructor |].
  apply Forall_cons in Hprev as [Ht Hl]. constructor; [| by apply IH].
  unfold taskUpdated in Hup. destruct (bool_decide _); [| by subst].
  destruct Hup as (subs & Hsubs & ->). simpl. revert Ht.
  induction Hsubs as [|st st' ss ss' Hst _ IHs]; intros Ht; [constructor |].
  apply Forall_cons in Ht as [Hc Hcs].
  constructor; [by eapply subtaskUpdated_consistent | by apply IHs].
Qed.

Lemma updateTaskStatus_consistent taskId newStatus prev :
  consistent prev -> consistent (updateTaskStatus taskId newStatus prev).
Proof.
  unfold consistent, updateTaskStatus. intros H. apply Forall_fmap.
  eapply Forall_impl; [exact H |]. intros t Ht. unfold compose.
  by destruct (bool_decide _).
Qed.

Lemma deleteTask_consistent taskId prev :
  consistent prev -> consistent (deleteTask taskId prev).
Proof.
  unfold consistent, deleteTask. rewrite !Forall_forall.
  intros H t [Ht _]%list_elem_of_In%filter_In. by apply H, list_elem_of_In.
Qed.

Lemma appendTask_consistent title description prev n tasks' n' :
  appendTask clock title description prev n = Ok tasks' n' ->
  consistent prev -> consistent tasks'.
Proof.
  intros [= <- _] H. apply Forall_app. split; [done |].
  repeat constructor; simpl; [by intros [? [=]] | done].
Qed.

Lemma builtSubtask_consistent index subIndex step n :
  subtaskConsistent (builtSubtask clock index subIndex step n).
Proof.
  unfold subtaskConsistent, builtSubtask, statusOf. simpl.
  repeat case_bool_decide; split; try done; by intros [? [=]].
Qed.

Lemma fetchUpdates_consistent data prev n tasks' n' :
  fetchUpdates clock data prev n = Ok tasks' n' ->
  consistent prev -> consistent tasks'.
Proof.
  unfold fetchUpdates. destruct (truthy (Some data)); [| by intros [= <- _]].
  cbv zeta. destruct (_ && _); [| intros [= <- _] _; constructor].
  intros (newTasks & n1 & Hrun & [= <- _])%bind_Ok_inv _.
  apply Forall_forall. intros t (o & Ho & Hid)%list_elem_of_omap.
  simpl in Hid. subst o. apply list_elem_of_lookup in Ho as [i Hi].
  destruct (imapM_Ok_lookup _ _ _ _ _ _ _ _ Hrun Hi) as (r & m & m' & _ & Hb).
  rewrite buildTask_eq in Hb. destruct (validRecord r); [| done].
  destruct (imapM _ _ _ m) as [subtasks m1|e] eqn:Hsubs; [| done].
  destruct (_ && _); [| done]. injection Hb as <- _. simpl.
  apply Forall_forall. intros st [j Hj]%list_elem_of_lookup.
  destruct (imapM_Ok_lookup _ _ _ _ _ _ _ _ Hsubs Hj) as (step & a & b & _ & Hs).
  apply buildSubtask_Ok_inv in Hs as [_ ->]. apply builtSubtask_consistent.
Qed.

Lemma reachable_consistent tasks n : reachable clock tasks n -> consistent tasks.
Proof.
  induction 1 as [n | data tasks n tasks' n' _ IH Hrun
                  | taskId newStatus tasks n _ IH
                  | taskId subtaskId newStatus tasks n tasks' n' _ IH Hrun
                  | tasks n tasks' n' _ IH Hrun
                  | title tasks n tasks' n' _ IH Hrun
                  | taskId tasks n _ IH].
  - constructor.
  - by eapply fetchUpdates_consistent.
  - by apply updateTaskStatus_consistent.
  - by eapply updateSubtaskStatus_consistent.
  - by eapply appendTask_consistent.
  - by eapply appendTask_consistent.
  - by apply deleteTask_consistent.
Qed.

End Consistency.

(** [updateSubtaskStatus] always returns, and what it returns is the old
    collection position by position: a task with another id is kept; in a
    task with the addressed id a subtask with another id is kept, and a
    subtask with the addressed id has the new status and a [completedAt]
    read from the clock during this call when that status is completed,
    and none otherwise. *)
Lemma updateSubtaskStatus_addressed clock taskId subtaskId newStatus prev n :
  exists tasks' n',
    updateSubtaskStatus clock taskId subtaskId newStatus prev n = Ok tasks' n' /\
    length tasks' = length prev /\
    forall i t, prev !! i = Some t ->
      exists t', tasks' !! i = Some t' /\
        (Task.id t <> taskId -> t' = t) /\
        (Task.id t = taskId ->
         Task.id t' = taskId /\
         length (Task.subtasks t') = length (Task.subtasks t) /\
         forall j st, Task.subtasks t !! j = Some st ->
           exists st', Task.subtasks t' !! j = Some st' /\
             (SubTask.id st <> subtaskId -> st' = st) /\
             (SubTask.id st = subtaskId ->
              SubTask.id st' = subtaskId /\
              SubTask.status st' = newStatus /\
              (newStatus = Completed ->
               exists m, (n <= m < n')%nat /\
                         SubTask.completedAt st' = Some (clock m)) /\
              (newStatus <> Completed -> SubTask.completedAt st' = None))).
Proof.
  destruct (updateSubtaskStatus_spec clock taskId subtaskId newStatus prev n)
    as (tasks' & n' & Hrun & HF).
  exists tasks', n'. split; [done |].
  split; [symmetry; by eapply Forall2_length |].
  intros i t Hi.
  destruct (Forall2_lookup_l _ _ _ _ _ HF Hi) as (t' & Hi' & Hup).
  exists t'. split; [done |]. unfold taskUpdated in Hup.
  destruct (decide (Task.id t = taskId)) as [Hid|Hid].
  - rewrite bool_decide_eq_true_2 in Hup by done.
    destruct Hup as (subs & Hsubs & ->). split; [done |]. intros _. simpl.
    split; [done |].
    split; [symmetry; by eapply Forall2_length |].
    intros j st Hj.
    destruct (Forall2_lookup_l _ _ _ _ _ Hsubs Hj) as (st' & Hj' & Hst).
    exists st'. split; [done |]. unfold subtaskUpdated in Hst.
    destruct (decide (SubTask.id st = subtaskId)) as [Hsid|Hsid].
    + rewrite bool_decide_eq_true_2 in Hst by done. split; [done |]. intros _.
      assert (SubTask.id st' = subtaskId) as Hsid'
        by (destruct Hst as [m ->]; done).
      split; [done |].
      apply (updateSubtaskStatus_stamps clock taskId subtaskId newStatus prev n
               tasks' n' Hrun _ st' (list_elem_of_lookup_2 _ _ _ Hi'));
        [done | | done].
      simpl. by eapply list_elem_of_lookup_2.
    + rewrite bool_decide_eq_false_2 in Hst by done. by split.
  - rewrite bool_decide_eq_false_2 in Hup by done. by split.
Qed.

(** C3, as the code has it.  In every collection the page can reach, each
    subtask has a [completedAt] exactly when its status is completed: the
    builder establishes this and every update keeps it.
    [updateSubtaskStatus] always returns the collection position by
    position, where a subtask addressed by it has the new status and a
    [completedAt] that is a clock reading made during the call when that
    status is completed and is cleared otherwise, and every subtask and
    task it does not address is kept; nothing else in the result carries
    the addressed ids.  A task has no [completedAt]: [updateTaskStatus]
    writes the status of the tasks with the addressed id and nothing
    else. *)
Theorem C3_subtask_completedAt clock :
  (forall tasks n, reachable clock tasks n -> consistent tasks) /\
  (forall taskId subtaskId newStatus prev n,
     exists tasks' n',
       updateSubtaskStatus clock taskId subtaskId newStatus prev n = Ok tasks' n' /\
       length tasks' = length prev /\
       forall i t, prev !! i = Some t ->
         exists t', tasks' !! i = Some t' /\
           (Task.id t <> taskId -> t' = t) /\
           (Task.id t = taskId ->
            Task.id t' = taskId /\
            length (Task.subtasks t') = length (Task.subtasks t) /\
            forall j st, Task.subtasks t !! j = Some st ->
              exists st', Task.subtasks t' !! j = Some st' /\
                (SubTask.id st <> subtaskId -> st' = st) /\
                (SubTask.id st = subtaskId ->
                 SubTask.id st' = subtaskId /\
                 SubTask.status st' = newStatus /\
                 (newStatus = Completed ->
                  exists m, (n <= m < n')%nat /\
                            SubTask.completedAt st' = Some (clock m)) /\
                 (newStatus <> Completed -> SubTask.completedAt st' = None)))) /\
  (forall taskId subtaskId newStatus prev n tasks' n',
     updateSubtaskStatus clock taskId subtaskId newStatus prev n = Ok tasks' n' ->
     forall t st,
       t ∈ tasks' -> Task.id t = taskId ->
       st ∈ Task.subtasks t -> SubTask.id st = subtaskId ->
       SubTask.status st = newStatus /\
       (newStatus = Completed ->
        exists m, (n <= m < n')%nat /\ SubTask.completedAt st = Some (clock m)) /\
       (newStatus <> Completed -> SubTask.completedAt st = None)) /\
  (forall taskId newStatus prev,
     Forall2 (fun t t' =>
                sameButStatus t t' /\
                Task.status t'
                = (if bool_decide (Task.id t = taskId)
                   then newStatus else Task.status t) /\
                Task.completedAt t' = None)
       prev (updateTaskStatus taskId newStatus prev)).
Proof.
  split_and!.
  - apply reachable_consistent.
  - apply updateSubtaskStatus_addressed.
  - apply updateSubtaskStatus_stamps.
  - intros taskId newStatus prev. unfold updateTaskStatus.
    apply Forall2_fmap_r, Forall_Forall2_diag, Forall_forall.
    intros t _. unfold compose, sameButStatus.
    by destruct (bool_decide (Task.id t = taskId)).
Qed.

Lemma C3_subtask_completedAt_witness :
  exists tasks n',
    fetchUpdates sampleClock (JArr sampleRecords) [] 0%nat = Ok tasks n' /\
    consistent tasks.
Proof.
  destruct (fetchUpdates sampleClock (JArr sampleRecords) [] 0%nat)
    as [tasks n'|e] eqn:Hrun; [| vm_compute in Hrun; discriminate Hrun].
  exists tasks, n'. split; [reflexivity |].
  apply (proj1 (C3_subtask_completedAt sampleClock) tasks n').
  exact (reach_fetchUpdates sampleClock (JArr sampleRecords) [] 0%nat tasks n'
           (reach_init sampleClock 0%nat) Hrun).
Defined.

(** The claim as written fails for a task toggled directly: the toggle
    makes it completed and nothing gives it a [completedAt]. *)
Lemma C3_counterexample :
  updateTaskStatus "t1" Completed [sampleTask "t1" InProgress []]
  = [sampleTask "t1" Completed []] /\
  Task.status (sampleTask "t1" Completed []) = Completed /\
  Task.completedAt (sampleTask "t1" Completed []) = None /\
  ~ (is_Some (Task.completedAt (sampleTask "t1" Completed [])) <->
     Task.status (sampleTask "t1" Completed []) = Completed).
Proof.
  split_and!; [reflexivity | reflexivity | reflexivity |].
  intros [_ H]. destruct (H eq_refl) as [d Hd]. discriminate Hd.
Qed.

(** ** Time-window view (C5, C10) *)

Lemma hasRecentSubtaskActivity_spec w today t :
  hasRecentSubtaskActivity w today (today - 24 * 60 * 60 * 1000)
    (today - 7 * 24 * 60 * 60 * 1000) t = true <->
  exists st d, st ∈ Task.subtasks t /\ SubTask.completedAt st = Some d /\
               inWindow w today d.
Proof.
  unfold hasRecentSubtaskActivity. rewrite existsb_exists. split.
  - intros (st & Hst%list_elem_of_In & H).
    destruct (SubTask.completedAt st) as [d|] eqn:Hd; [| done].
    exists st, d. split_and!; [done | done |].
    destruct w; simpl; lia.
  - intros (st & d & Hst%list_elem_of_In & Hd & H). exists st.
    split; [done |]. rewrite Hd. destruct w; simpl in *; lia.
Qed.

Lemma isRecentTask_spec w today t :
  isRecentTask w today (today - 24 * 60 * 60 * 1000)
    (today - 7 * 24 * 60 * 60 * 1000) t = true <->
  inWindow w today (Task.createdAt t).
Proof. unfold isRecentTask. destruct w; simpl; lia. Qed.

Lemma filter_sublist {A} (f : A -> bool) l : sublist (List.filter f l) l.
Proof.
  induction l as [|x l IH]; simpl; [constructor |].
  destruct (f x); by constructor.
Qed.

(** C5.  For every collection, window and instant, a task is in the result
    of the time-window filter exactly when it is in the collection and one
    of its subtasks has a [completedAt] in the window or its own
    [createdAt] is in the window, the window being taken from the start of
    the current day; the result keeps the order of the collection.  This is
    the view computed on the tabs other than updates. *)
Theorem C5_time_window startOfDay w now tasks t :
  (t ∈ timeWindowFilter startOfDay w now tasks <->
   t ∈ tasks /\ activeIn w (startOfDay now) t) /\
  sublist (timeWindowFilter startOfDay w now tasks) tasks /\
  filteredTasks startOfDay TabTasks w now tasks
  = timeWindowFilter startOfDay w now tasks /\
  filteredTasks startOfDay TabChat w now tasks
  = timeWindowFilter startOfDay w now tasks.
Proof.
  split_and!; [| apply filter_sublist | done | done].
  unfold timeWindowFilter, activeIn. cbv zeta.
  rewrite list_elem_of_In, filter_In, orb_true_iff, <- list_elem_of_In.
  by rewrite hasRecentSubtaskActivity_spec, isRecentTask_spec.
Qed.

(** C10.  On the updates tab the view is the whole collection, whatever
    window is selected; the filter is what the other tabs compute. *)
Theorem C10_updates_tab_unfiltered startOfDay w now tasks :
  filteredTasks startOfDay TabUpdates w now tasks = tasks /\
  filteredTasks startOfDay TabTasks w now tasks
  = timeWindowFilter startOfDay w now tasks /\
  filteredTasks startOfDay TabChat w now tasks
  = timeWindowFilter startOfDay w now tasks.
Proof. done. Qed.

(** A task created eight days ago with nothing completed since is outside
    every window, and still shown on the updates tab. *)
Example filteredTasks_old_task :
  let old := Task.mk "t1" (JStr "Old") (JStr "n/a") Pending Medium
               (1700000000000 - 8 * 86400000) [] in
  timeWindowFilter utcStartOfDay Week 1700000000000 [old] = [] /\
  filteredTasks utcStartOfDay TabUpdates Week 1700000000000 [old] = [old].
Proof. done. Qed.

(** * Further properties of the page and of the backend *)

(** ** Updates keep what they do not address *)

Lemma subtaskUpdated_frame clock subtaskId newStatus st st' :
  subtaskUpdated clock subtaskId newStatus st st' -> sameSubtaskFrame st st'.
Proof.
  unfold subtaskUpdated, sameSubtaskFrame. case_bool_decide.
  - by intros [m ->].
  - by intros ->.
Qed.

Lemma taskUpdated_frame clock taskId subtaskId newStatus t t' :
  taskUpdated clock taskId subtaskId newStatus t t' -> sameTaskFrame t t'.
Proof.
  unfold taskUpdated, sameTaskFrame. case_bool_decide.
  - intros (subs & Hsubs & ->). simpl. split_and!; try done.
    eapply Forall2_impl; [exact Hsubs |]. apply subtaskUpdated_frame.
  - intros ->. split_and!; try done.
    apply Forall_Forall2_diag, Forall_forall. by intros st _.
Qed.

Lemma sameTaskFrame_taskIds t t' : sameTaskFrame t t' -> taskIds t' = taskIds t.
Proof.
  intros (Hid & _ & _ & _ & _ & Hsubs). unfold taskIds. rewrite Hid. f_equal.
  induction Hsubs as [|st st' l l' [Hst _] _ IH]; [done |].
  by rewrite !fmap_cons, Hst, IH.
Qed.

Lemma sameTaskFrame_allIds l l' :
  Forall2 sameTaskFrame l l' -> allIds l' = allIds l.
Proof.
  induction 1 as [|t t' l l' Ht _ IH]; [done |].
  change (allIds (t' :: l')) with (taskIds t' ++ allIds l')%list.
  change (allIds (t :: l)) with (taskIds t ++ allIds l)%list.
  by rewrite (sameTaskFrame_taskIds _ _ Ht), IH.
Qed.

Lemma sameButStatus_frame t t' : sameButStatus t t' -> sameTaskFrame t t'.
Proof.
  intros (? & ? & ? & ? & ? & Hsubs). unfold sameTaskFrame. rewrite Hsubs.
  split_and!; try done. apply Forall_Forall2_diag, Forall_forall.
  by intros st _.
Qed.

Lemma updateTaskStatus_sameButStatus taskId newStatus prev :
  Forall2 sameButStatus prev (updateTaskStatus taskId newStatus prev).
Proof.
  unfold updateTaskStatus. apply Forall2_fmap_r, Forall_Forall2_diag, Forall_forall.
  intros t _. unfold compose, sameButStatus. by destruct (bool_decide _).
Qed.

Lemma updateTaskStatus_allIds taskId newStatus prev :
  allIds (updateTaskStatus taskId newStatus prev) = allIds prev.
Proof.
  apply sameTaskFrame_allIds.
  eapply Forall2_impl; [apply updateTaskStatus_sameButStatus |].
  apply sameButStatus_frame.
Qed.

Lemma updateSubtaskStatus_frame clock taskId subtaskId newStatus prev n :
  exists tasks' n',
    updateSubtaskStatus clock taskId subtaskId newStatus prev n = Ok tasks' n' /\
    Forall2 sameTaskFrame prev tasks' /\
    allIds tasks' = allIds prev.
Proof.
  destruct (updateSubtaskStatus_spec clock taskId subtaskId newStatus prev n)
    as (tasks' & n' & Hrun & HF).
  assert (Forall2 sameTaskFrame prev tasks') as Hframe.
  { eapply Forall2_impl; [exact HF |]. apply taskUpdated_frame. }
  exists tasks', n'. split; [done |]. split; [done |].
  by apply sameTaskFrame_allIds.
Qed.

(** X1.  The status updates never touch an identifier, a title, a
    description, an output, a priority or a creation time, and never add,
    drop or reorder a task or a subtask: [updateTaskStatus] changes nothing
    but task statuses, and [updateSubtaskStatus] always returns a
    collection with the same frame and the same list of identifiers. *)
Theorem updates_keep_frame clock taskId subtaskId newStatus prev n :
  Forall2 sameButStatus prev (updateTaskStatus taskId newStatus prev) /\
  allIds (updateTaskStatus taskId newStatus prev) = allIds prev /\
  exists tasks' n',
    updateSubtaskStatus clock taskId subtaskId newStatus prev n = Ok tasks' n' /\
    Forall2 sameTaskFrame prev tasks' /\
    allIds tasks' = allIds prev.
Proof.
  split_and!.
  - apply updateTaskStatus_sameButStatus.
  - apply updateTaskStatus_allIds.
  - apply updateSubtaskStatus_frame.
Qed.

(** A map whose callback returns every item but one as it is puts the
    result for that item in its place. *)
Lemma imapM_single {A} (f : nat -> A -> M A) l :
  forall i x x' n n' i0,
    l !! i = Some x ->
    (forall idx k y m, l !! k = Some y -> k <> i -> f idx y m = Ok y m) ->
    (forall idx, f idx x n = Ok x' n') ->
    imapM f i0 l n = Ok (<[i:=x']> l) n'.
Proof.
  induction l as [|y l IH]; intros i x x' n n' i0 Hi Hother Hx; [done |].
  destruct i as [|i]; simpl in *.
  - injection Hi as ->. rewrite (bind_Ok _ _ _ _ _ (Hx i0)).
    assert (forall idx z m, z ∈ l -> f idx z m = Ok z m) as Hid.
    { intros idx z m [k Hk]%list_elem_of_lookup.
      by apply (Hother idx (S k) z m). }
    by rewrite (bind_Ok _ _ _ _ _ (imapM_id f l Hid (S i0) n')).
  - rewrite (bind_Ok _ _ _ _ _ (Hother i0 0%nat y n eq_refl ltac:(done))).
    rewrite (bind_Ok _ _ _ _ _
               (IH i x x' n n' (S i0) Hi
                  (fun idx k z m Hk Hne =>
                     Hother idx (S k) z m Hk ltac:(lia)) Hx)).
    done.
Qed.

Lemma elem_of_allIds_task l t : t ∈ l -> Task.id t ∈ allIds l.
Proof.
  intros Ht. apply list_elem_of_bind. exists t. split; [left | done].
Qed.

Lemma NoDup_allIds_tasks l : NoDup (allIds l) -> NoDup (Task.id <$> l).
Proof.
  induction l as [|t l IH]; [constructor |].
  change (allIds (t :: l)) with (Task.id t :: (SubTask.id <$> Task.subtasks t)
                                   ++ allIds l)%list.
  intros [Hnotin Hnd]%NoDup_cons. apply NoDup_app in Hnd as (_ & _ & Hl).
  rewrite fmap_cons. apply NoDup_cons. split; [| by apply IH].
  intros (t' & Hid & Ht')%list_elem_of_fmap. apply Hnotin.
  apply elem_of_app. right. rewrite Hid. by apply elem_of_allIds_task.
Qed.

Lemma NoDup_allIds_subtasks l t :
  NoDup (allIds l) -> t ∈ l -> NoDup (SubTask.id <$> Task.subtasks t).
Proof.
  induction l as [|t0 l IH]; [by intros _ ?%elem_of_nil |].
  change (allIds (t0 :: l)) with (Task.id t0 :: (SubTask.id <$> Task.subtasks t0)
                                    ++ allIds l)%list.
  intros [_ Hnd]%NoDup_cons [->|Ht]%elem_of_cons;
    apply NoDup_app in Hnd as (Hsub & _ & Hl); [done | by apply IH].
Qed.

Lemma NoDup_fmap_lookup_ne {A B} `{EqDecision B} (f : A -> B) l i k x y :
  NoDup (f <$> l) -> l !! i = Some x -> l !! k = Some y -> k <> i -> f y <> f x.
Proof.
  intros Hnd Hi Hk Hne Heq. apply Hne.
  apply (NoDup_lookup (f <$> l) k i (f x)); [done | |].
  - by rewrite list_lookup_fmap, Hk, <- Heq.
  - by rewrite list_lookup_fmap, Hi.
Qed.

(** X2.  In a collection whose identifiers are all distinct, as a build
    pass leaves it, a click on a subtask changes that subtask and the
    status of its task and nothing else: the collection that results is the
    old one with the clicked row replaced, the clicked subtask stepped to
    its next status, and the clock is read once when that status is
    completed and not at all otherwise. *)
Theorem click_changes_one_subtask clock prev n i j t st :
  NoDup (allIds prev) ->
  prev !! i = Some t ->
  Task.subtasks t !! j = Some st ->
  toggleSubtaskAt clock i j prev n
  = Ok (<[i := clickedTask t (<[j := clickedSubtask clock n st]> (Task.subtasks t))]> prev)
      (if bool_decide (nextStatus (SubTask.status st) = Completed)
       then S n else n).
Proof.
  intros Hnd Ht Hst. unfold toggleSubtaskAt, onClickSubtask. rewrite Ht, Hst.
  pose proof (NoDup_allIds_tasks prev Hnd) as Htasks.
  pose proof (NoDup_allIds_subtasks prev t Hnd
                (proj2 (list_elem_of_lookup _ _) (ex_intro _ i Ht))) as Hsubs.
  unfold updateSubtaskStatus, mapM.
  apply (imapM_single _ prev i t _ n _ 0%nat Ht).
  - intros _ k t0 m Hk Hne.
    rewrite bool_decide_eq_false_2; [done |].
    by apply (NoDup_fmap_lookup_ne Task.id prev i k t t0).
  - intros _. rewrite bool_decide_eq_true_2 by done.
    erewrite bind_Ok; [reflexivity |].
    apply (imapM_single _ (Task.subtasks t) j st _ n _ 0%nat Hst).
    + intros _ k st0 m Hk Hne. unfold updateSubtask.
      rewrite bool_decide_eq_false_2; [done |].
      by apply (NoDup_fmap_lookup_ne SubTask.id (Task.subtasks t) j k st st0).
    + intros _. unfold updateSubtask, clickedSubtask.
      rewrite bool_decide_eq_true_2 by done.
      by destruct (bool_decide (nextStatus (SubTask.status st) = Completed)).
Qed.

Lemma click_changes_one_subtask_witness :
  toggleSubtaskAt sampleClock 0 1
    [sampleTask "t1" Pending
       [sampleStep "t1-0" Completed (Some 5); sampleStep "t1-1" InProgress None];
     sampleTask "t2" Pending [sampleStep "t2-0" Pending None]] 7%nat
  = Ok [sampleTask "t1" Completed
          [sampleStep "t1-0" Completed (Some 5);
           sampleStep "t1-1" Completed (Some (sampleClock 7))];
        sampleTask "t2" Pending [sampleStep "t2-0" Pending None]] 8%nat.
Proof.
  apply (click_changes_one_subtask sampleClock
           [sampleTask "t1" Pending
              [sampleStep "t1-0" Completed (Some 5);
               sampleStep "t1-1" InProgress None];
            sampleTask "t2" Pending [sampleStep "t2-0" Pending None]]
           7%nat 0%nat 1%nat
           (sampleTask "t1" Pending
              [sampleStep "t1-0" Completed (Some 5);
               sampleStep "t1-1" InProgress None])
           (sampleStep "t1-1" InProgress None)).
  - by apply (bool_decide_unpack _); vm_compute.
  - reflexivity.
  - reflexivity.
Defined.

(** ** Composition of the task updates *)

Lemma deleteTask_unknown taskId prev :
  deleteTask taskId prev = prev <-> unknownTask taskId prev.
Proof.
  unfold deleteTask, unknownTask. induction prev as [|t l IH]; simpl.
  - split; [constructor | done].
  - case_bool_decide as Hid; simpl.
    + split; [| by intros [? _]%Forall_cons].
      intros Heq. pose proof (filter_sublist
        (fun task => negb (bool_decide (Task.id task = taskId))) l) as Hsub.
      rewrite Heq in Hsub. apply sublist_length in Hsub. simpl in Hsub. lia.
    + rewrite Forall_cons, <- IH. split; [by intros [= ->] | by intros [_ ->]].
Qed.

(** X3.  [deleteTask] removes every task that carries the id, also when
    several do, and nothing else: what stays are the tasks with another
    id, in their order.  It changes the collection exactly when the id is
    present, and deleting twice is deleting once. *)
Theorem deleteTask_removes_exactly taskId prev :
  (forall t, t ∈ deleteTask taskId prev <-> t ∈ prev /\ Task.id t <> taskId) /\
  sublist (deleteTask taskId prev) prev /\
  (deleteTask taskId prev = prev <-> unknownTask taskId prev) /\
  deleteTask taskId (deleteTask taskId prev) = deleteTask taskId prev.
Proof.
  split_and!.
  - intros t. unfold deleteTask.
    rewrite list_elem_of_In, filter_In, <- list_elem_of_In, negb_true_iff.
    by rewrite bool_decide_eq_false.
  - apply filter_sublist.
  - apply deleteTask_unknown.
  - apply deleteTask_unknown, Forall_forall. intros t Ht.
    unfold deleteTask in Ht.
    apply list_elem_of_In, filter_In in Ht as [_ Ht].
    by apply negb_true_iff, bool_decide_eq_false in Ht.
Qed.

(** X4.  For one task id the last [updateTaskStatus] wins; updates of
    different task ids can be made in either order; and deleting a task
    before or after a status update gives the same collection. *)
Theorem updateTaskStatus_composes a b first last prev :
  updateTaskStatus a last (updateTaskStatus a first prev)
  = updateTaskStatus a last prev /\
  (a <> b ->
   updateTaskStatus a first (updateTaskStatus b last prev)
   = updateTaskStatus b last (updateTaskStatus a first prev)) /\
  deleteTask b (updateTaskStatus a first prev)
  = updateTaskStatus a first (deleteTask b prev).
Proof.
  unfold updateTaskStatus, deleteTask. split_and!.
  - rewrite map_map. apply map_ext. intros t.
    destruct (bool_decide (Task.id t = a)) eqn:E; simpl; by rewrite E.
  - intros Hab. rewrite !map_map. apply map_ext. intros t.
    destruct (bool_decide (Task.id t = a)) eqn:Ea,
             (bool_decide (Task.id t = b)) eqn:Eb; simpl;
      rewrite ?Ea, ?Eb; try done.
    apply bool_decide_eq_true in Ea, Eb. congruence.
  - induction prev as [|t l IH]; simpl; [done |].
    destruct (bool_decide (Task.id t = a)) eqn:Ea; simpl;
      destruct (bool_decide (Task.id t = b)); simpl; rewrite ?Ea, IH; done.
Qed.

Lemma updateTaskStatus_composes_witness :
  updateTaskStatus "t1" Completed
    (updateTaskStatus "t2" InProgress
       [sampleTask "t1" Pending []; sampleTask "t2" Pending []])
  = updateTaskStatus "t2" InProgress
      (updateTaskStatus "t1" Completed
         [sampleTask "t1" Pending []; sampleTask "t2" Pending []]).
Proof.
  apply (updateTaskStatus_composes "t1" "t2" Completed InProgress
           [sampleTask "t1" Pending []; sampleTask "t2" Pending []]).
  discriminate.
Defined.

Lemma deleteTask_last taskId prev t :
  Task.id t = taskId ->
  deleteTask taskId (prev ++ [t]) = deleteTask taskId prev.
Proof.
  intros Hid. unfold deleteTask. rewrite List.filter_app. simpl.
  rewrite bool_decide_eq_true_2 by done. simpl. by rewrite app_nil_r.
Qed.

(** X5.  [addNewTask] and [createTaskFromChat] always return, after three
    clock readings, the collection with one task appended: pending, of
    medium priority, identified by the first reading, created at the
    second, with one pending subtask identified by the third reading and
    without [completedAt], and titled as given for [createTaskFromChat].
    Deleting the new id afterwards gives the collection as it was before
    the addition without the older tasks that carry that id, so the
    collection itself when no older task does. *)
Theorem added_task_deleted clock title prev n :
  exists t t',
    addNewTask clock prev n = Ok (prev ++ [t])%list (3 + n)%nat /\
    createTaskFromChat clock title prev n = Ok (prev ++ [t'])%list (3 + n)%nat /\
    Task.title t = JStr "New Task" /\ Task.title t' = JStr title /\
    Forall (fun new =>
              Task.id new = pretty (clock n) /\
              Task.status new = Pending /\ Task.priority new = Medium /\
              Task.createdAt new = clock (1 + n)%nat /\
              (exists st, Task.subtasks new = [st] /\
                 SubTask.id st = pretty (clock (2 + n)%nat) +:+ "-1" /\
                 SubTask.title st = JStr "Step 1" /\
                 SubTask.status st = Pending /\
                 SubTask.completedAt st = None) /\
              deleteTask (pretty (clock n)) (prev ++ [new])
              = deleteTask (pretty (clock n)) prev /\
              (unknownTask (pretty (clock n)) prev ->
               deleteTask (pretty (clock n)) (prev ++ [new]) = prev))
      [t; t'].
Proof.
  eexists. eexists.
  split; [reflexivity |]. split; [reflexivity |].
  split; [reflexivity |]. split; [reflexivity |].
  repeat apply Forall_cons_2; [| | apply Forall_nil_2].
  all: split_and!; try reflexivity; eauto 10 using deleteTask_last.
  all: intros Hfresh; rewrite deleteTask_last by reflexivity;
    by apply deleteTask_unknown.
Qed.

Lemma added_task_deleted_witness :
  exists t,
    addNewTask sampleClock [sampleTask "t1" Pending []] 0%nat
    = Ok ([sampleTask "t1" Pending []] ++ [t])%list 3%nat /\
    Task.id t = "1700000000000" /\
    deleteTask "1700000000000" ([sampleTask "t1" Pending []] ++ [t])
    = [sampleTask "t1" Pending []].
Proof.
  destruct (added_task_deleted sampleClock "Rotate keys"
              [sampleTask "t1" Pending []] 0%nat)
    as (t & t' & Hadd & _ & _ & _ & Hnew).
  apply Forall_cons_1 in Hnew as [(Hid & _ & _ & _ & _ & _ & Hdel) _].
  exists t. split; [exact Hadd |]. split; [exact Hid |].
  apply Hdel. repeat constructor. discriminate.
Defined.

Lemma allIds_deleteTask_sublist taskId prev :
  sublist (allIds (deleteTask taskId prev)) (allIds prev).
Proof.
  unfold deleteTask. induction prev as [|t l IH]; [constructor |].
  change (allIds (t :: l)) with (taskIds t ++ allIds l)%list.
  cbn [List.filter]. destruct (negb _).
  - match goal with
    | |- sublist (allIds (t :: ?k)) _ =>
        change (allIds (t :: k)) with (taskIds t ++ allIds k)%list
    end.
    by apply sublist_app.
  - by apply sublist_inserts_l.
Qed.

(** X6.  Identifiers that are all distinct stay so under
    [updateTaskStatus], [updateSubtaskStatus] and [deleteTask]: together
    with the build pass, a collection that was fetched and then only
    toggled or pruned never holds an identifier twice. *)
Theorem distinct_ids_kept clock taskId subtaskId newStatus prev n :
  NoDup (allIds prev) ->
  NoDup (allIds (updateTaskStatus taskId newStatus prev)) /\
  NoDup (allIds (deleteTask taskId prev)) /\
  exists tasks' n',
    updateSubtaskStatus clock taskId subtaskId newStatus prev n = Ok tasks' n' /\
    NoDup (allIds tasks').
Proof.
  intros Hnd.
  destruct (updateSubtaskStatus_frame clock taskId subtaskId newStatus prev n)
    as (tasks' & n' & Hrun & _ & Hsts).
  split_and!.
  - by rewrite updateTaskStatus_allIds.
  - eapply sublist_NoDup; [exact Hnd | apply allIds_deleteTask_sublist].
  - exists tasks', n'. by rewrite Hsts.
Qed.

Lemma distinct_ids_kept_witness :
  NoDup (allIds (deleteTask "t1"
                   [sampleTask "t1" Pending [sampleStep "s1" Pending None];
                    sampleTask "t2" Pending [sampleStep "s2" Pending None]])).
Proof.
  apply (distinct_ids_kept sampleClock "t1" "s1" Completed
           [sampleTask "t1" Pending [sampleStep "s1" Pending None];
            sampleTask "t2" Pending [sampleStep "s2" Pending None]] 0%nat).
  by apply (bool_decide_unpack _); vm_compute.
Defined.

(** ** The fetch and its failures *)

(** An object without a title is no record: the fetch leaves no task. *)
Lemma fetchUpdates_untitled clock fields prev n :
  assoc "title" fields = None ->
  fetchUpdates clock (JObj fields) prev n = Ok [] n.
Proof.
  intros Htitle. unfold fetchUpdates. simpl.
  unfold buildTask, bind, lift, ret. simpl. by rewrite Htitle.
Qed.

(** X7.  A failed request for the daily updates empties the collection:
    the object that [fetchDailyUpdates] answers with is truthy and has no
    title, so [fetchUpdates] sets the tasks to the empty list, as it does
    for any answer in the [tool_results] format of the query endpoint.  A
    body that was read but is falsy leaves the collection as it was. *)
Theorem failed_fetch_clears_tasks clock reply prev n :
  (failed reply ->
   fetchUpdates clock (fetchDailyUpdates reply) prev n = Ok [] n) /\
  (forall toolResults,
     fetchUpdates clock (answerWith toolResults) prev n = Ok [] n) /\
  (forall data, reply = Reply true (Some data) -> truthy (Some data) = false ->
     fetchUpdates clock (fetchDailyUpdates reply) prev n = Ok prev n).
Proof.
  split_and!.
  - intros Hfailed.
    assert (fetchDailyUpdates reply = JObj [("tool_results", JArr [])]) as ->
      by (by destruct reply as [|[] []]).
    by apply fetchUpdates_untitled.
  - intros toolResults. by apply fetchUpdates_untitled.
  - intros data -> Hfalsy. simpl. unfold fetchUpdates. by rewrite Hfalsy.
Qed.

Lemma failed_fetch_clears_tasks_witness :
  fetchUpdates sampleClock (fetchDailyUpdates (Reply false None))
    [sampleTask "t1" Pending []] 0%nat = Ok [] 0%nat /\
  fetchUpdates sampleClock (fetchDailyUpdates (Reply true (Some JNull)))
    [sampleTask "t1" Pending []] 0%nat = Ok [sampleTask "t1" Pending []] 0%nat.
Proof.
  split.
  - by apply (failed_fetch_clears_tasks sampleClock (Reply false None)
                [sampleTask "t1" Pending []] 0%nat).
  - by apply (failed_fetch_clears_tasks sampleClock (Reply true (Some JNull))
                [sampleTask "t1" Pending []] 0%nat) with (data := JNull).
Defined.

(** ** The details dialog *)

Lemma find_map_withStatus taskId newStatus v tasks :
  List.find (fun t => bool_decide (Task.id t = v))
    (map (withStatus taskId newStatus) tasks)
  = withStatus taskId newStatus
      <$> List.find (fun t => bool_decide (Task.id t = v)) tasks.
Proof.
  induction tasks as [|t l IH]; simpl; [done |].
  assert (Task.id (withStatus taskId newStatus t) = Task.id t) as ->
    by (unfold withStatus; by destruct (bool_decide (Task.id t = taskId))).
  by destruct (bool_decide (Task.id t = v)).
Qed.

(** X8.  The details dialog follows the collection: the task it shows
    carries the viewed id and is in the collection; it is the first such
    task with its status replaced after [updateTaskStatus]; once the
    viewed task is deleted the dialog shows nothing, and deleting another
    task changes nothing in it. *)
Theorem viewedTask_follows_collection viewingTaskId taskId newStatus tasks :
  (forall t, viewedTask viewingTaskId tasks = Some t ->
             viewingTaskId = Some (Task.id t) /\ t ∈ tasks) /\
  viewedTask viewingTaskId (updateTaskStatus taskId newStatus tasks)
  = withStatus taskId newStatus <$> viewedTask viewingTaskId tasks /\
  viewedTask (Some taskId) (deleteTask taskId tasks) = None /\
  (viewingTaskId <> Some taskId ->
   viewedTask viewingTaskId (deleteTask taskId tasks)
   = viewedTask viewingTaskId tasks).
Proof.
  split_and!.
  - intros t. destruct viewingTaskId as [v|]; simpl; [| done].
    destruct (bool_decide (v = EmptyString)); [done |]. intros Hfind.
    apply find_some in Hfind as [Hin Hid].
    apply bool_decide_eq_true in Hid. subst v.
    split; [done | by apply list_elem_of_In].
  - destruct viewingTaskId as [v|]; simpl; [| done].
    destruct (bool_decide (v = EmptyString)); [done |].
    apply find_map_withStatus.
  - simpl. destruct (bool_decide (taskId = EmptyString)); [done |].
    unfold deleteTask. induction tasks as [|t l IH]; simpl; [done |].
    destruct (bool_decide (Task.id t = taskId)) eqn:E; simpl; [done |].
    by rewrite E.
  - intros Hne. destruct viewingTaskId as [v|]; simpl; [| done].
    destruct (bool_decide (v = EmptyString)); [done |].
    unfold deleteTask. induction tasks as [|t l IH]; simpl; [done |].
    destruct (bool_decide (Task.id t = taskId)) eqn:E; simpl.
    + apply bool_decide_eq_true in E.
      rewrite bool_decide_eq_false_2; [done | congruence].
    + by destruct (bool_decide (Task.id t = v)).
Qed.

Lemma viewedTask_follows_collection_witness :
  viewedTask (Some "t2")
    (deleteTask "t1" [sampleTask "t1" Pending []; sampleTask "t2" Pending []])
  = viewedTask (Some "t2")
      [sampleTask "t1" Pending []; sampleTask "t2" Pending []].
Proof.
  apply (viewedTask_follows_collection (Some "t2") "t1" Pending
           [sampleTask "t1" Pending []; sampleTask "t2" Pending []]).
  discriminate.
Defined.

(** ** Expanded rows *)

(** X9.  [toggleTaskExpansion] flips the membership of the toggled id and
    of no other; toggling an id twice gives back the set, and toggles
    commute. *)
Theorem toggleTaskExpansion_flips taskId other prev :
  (taskId ∈ toggleTaskExpansion taskId prev <-> taskId ∉ prev) /\
  (other <> taskId ->
   (other ∈ toggleTaskExpansion taskId prev <-> other ∈ prev)) /\
  toggleTaskExpansion taskId (toggleTaskExpansion taskId prev) = prev /\
  toggleTaskExpansion taskId (toggleTaskExpansion other prev)
  = toggleTaskExpansion other (toggleTaskExpansion taskId prev).
Proof.
  assert (forall x y s, x ∈ toggleTaskExpansion y s
                        <-> (x = y /\ y ∉ s) \/ (x <> y /\ x ∈ s)) as Hmem.
  { intros x y s. unfold toggleTaskExpansion.
    case_bool_decide;
      rewrite ?elem_of_difference, ?elem_of_union, !elem_of_singleton;
      destruct (decide (x = y)) as [->|Hxy]; intuition congruence. }
  split_and!.
  - rewrite Hmem. intuition congruence.
  - intros Hne. rewrite Hmem. intuition congruence.
  - apply set_eq. intros x. rewrite !Hmem.
    destruct (decide (x = taskId)) as [->|Hx]; [| intuition congruence].
    destruct (decide (taskId ∈ prev)); intuition congruence.
  - apply set_eq. intros x. rewrite !Hmem.
    destruct (decide (x = taskId)), (decide (x = other)),
             (decide (taskId = other)), (decide (taskId ∈ prev)),
             (decide (other ∈ prev)); subst; intuition congruence.
Qed.

Lemma toggleTaskExpansion_flips_witness :
  "t2" ∈ toggleTaskExpansion "t1" {["t2"]} <-> "t2" ∈ ({["t2"]} : gset string).
Proof.
  apply (toggleTaskExpansion_flips "t1" "t2" {["t2"]}). discriminate.
Defined.

(** ** The simple task list *)

Lemma completedCount_cons t l :
  completedCount (t :: l)
  = ((if SimpleTask.completed t then 1 else 0) + completedCount l)%nat.
Proof. unfold completedCount. simpl. by destruct (SimpleTask.completed t). Qed.

Lemma toggleSimpleTask_unknown taskId l :
  taskId ∉ SimpleTask.id <$> l -> toggleSimpleTask taskId l = l.
Proof.
  induction l as [|t l IH]; [done |].
  rewrite fmap_cons, not_elem_of_cons. intros [Hne Hl]. simpl.
  rewrite bool_decide_eq_false_2 by done. f_equal. by apply IH.
Qed.

(** X10.  [toggleSimpleTask] keeps the length and the order of the list
    and is its own inverse; a toggle just before the deletion of the same
    task is lost; and when the ids are distinct, toggling a listed task
    moves the counter of completed tasks by exactly one. *)
Theorem toggleSimpleTask_involutive taskId prev :
  toggleSimpleTask taskId (toggleSimpleTask taskId prev) = prev /\
  SimpleTask.id <$> toggleSimpleTask taskId prev = SimpleTask.id <$> prev /\
  deleteSimpleTask taskId (toggleSimpleTask taskId prev)
  = deleteSimpleTask taskId prev /\
  (NoDup (SimpleTask.id <$> prev) ->
   forall task, task ∈ prev -> SimpleTask.id task = taskId ->
     completedCount (toggleSimpleTask taskId prev)
     = if SimpleTask.completed task
       then (completedCount prev - 1)%nat else (completedCount prev + 1)%nat).
Proof.
  split_and!.
  - unfold toggleSimpleTask. rewrite map_map. rewrite <- (map_id prev) at 2.
    apply map_ext. intros [i t c d]. simpl.
    destruct (bool_decide (i = taskId)) eqn:E; simpl; rewrite E; [| done].
    by rewrite negb_involutive.
  - unfold toggleSimpleTask. induction prev as [|t l IH]; [done |].
    cbn [map]. rewrite !fmap_cons, IH. f_equal.
    by destruct (bool_decide (SimpleTask.id t = taskId)).
  - unfold toggleSimpleTask, deleteSimpleTask.
    induction prev as [|t l IH]; simpl; [done |].
    destruct (bool_decide (SimpleTask.id t = taskId)) eqn:E; simpl;
      rewrite E; simpl; by rewrite IH.
  - induction prev as [|t l IH]; intros Hnd task Hin Hid.
    + by apply elem_of_nil in Hin.
    + rewrite fmap_cons in Hnd. apply NoDup_cons in Hnd as [Hnotin Hnd].
      change (toggleSimpleTask taskId (t :: l))
        with ((if bool_decide (SimpleTask.id t = taskId)
               then SimpleTask.mk (SimpleTask.id t) (SimpleTask.title t)
                      (negb (SimpleTask.completed t)) (SimpleTask.createdAt t)
               else t) :: toggleSimpleTask taskId l).
      rewrite !completedCount_cons.
      apply elem_of_cons in Hin as [->|Hin].
      * rewrite bool_decide_eq_true_2 by done. simpl.
        rewrite toggleSimpleTask_unknown by (by rewrite <- Hid).
        destruct (SimpleTask.completed t); simpl; lia.
      * assert (SimpleTask.id t <> taskId) as Hne.
        { intros Heq. apply Hnotin. rewrite Heq, <- Hid.
          apply list_elem_of_fmap. by exists task. }
        rewrite bool_decide_eq_false_2 by done.
        rewrite (IH Hnd task Hin Hid).
        assert (SimpleTask.completed task = true ->
                (0 < completedCount l)%nat) as Hpos.
        { intros Hc. clear -Hin Hc. induction l as [|t' l IHl].
          - by apply elem_of_nil in Hin.
          - rewrite completedCount_cons.
            apply elem_of_cons in Hin as [<-|Hin]; [rewrite Hc; lia |].
            specialize (IHl Hin). lia. }
        destruct (SimpleTask.completed task), (SimpleTask.completed t);
          try specialize (Hpos eq_refl); lia.
Qed.

Lemma toggleSimpleTask_involutive_witness :
  completedCount
    (toggleSimpleTask "2"
       [SimpleTask.mk "1" "Buy milk" true 0; SimpleTask.mk "2" "Call Bob" false 0])
  = 2%nat.
Proof.
  apply (toggleSimpleTask_involutive "2"
           [SimpleTask.mk "1" "Buy milk" true 0;
            SimpleTask.mk "2" "Call Bob" false 0])
    with (task := SimpleTask.mk "2" "Call Bob" false 0).
  - by apply (bool_decide_unpack _); vm_compute.
  - apply elem_of_cons. right. apply elem_of_cons. by left.
  - reflexivity.
Defined.

Lemma deleteSimpleTask_unknown taskId l :
  taskId ∉ SimpleTask.id <$> l -> deleteSimpleTask taskId l = l.
Proof.
  induction l as [|t l IH]; [done |].
  rewrite fmap_cons, not_elem_of_cons. intros [Hne Hl]. simpl.
  rewrite bool_decide_eq_false_2 by done. simpl. f_equal. by apply IH.
Qed.

(** X11.  [addSimpleTask] does nothing, and does not read the clock, when
    the input is blank after trimming; otherwise it reads the clock twice,
    clears the input and appends one task that is not completed, titled
    with the trimmed input and identified by the first reading, so the
    counter of completed tasks stays, and deleting the new task gives back
    the list when no older task carries that id. *)
Theorem addSimpleTask_outcome clock trim newTaskInput simpleTasks n :
  (trim newTaskInput = EmptyString ->
   addSimpleTask clock trim newTaskInput simpleTasks n
   = Ok (simpleTasks, newTaskInput) n) /\
  (trim newTaskInput <> EmptyString ->
   exists task,
     addSimpleTask clock trim newTaskInput simpleTasks n
     = Ok ((simpleTasks ++ [task])%list, EmptyString) (2 + n)%nat /\
     SimpleTask.id task = pretty (clock n) /\
     SimpleTask.title task = trim newTaskInput /\
     SimpleTask.completed task = false /\
     completedCount (simpleTasks ++ [task]) = completedCount simpleTasks /\
     (pretty (clock n) ∉ SimpleTask.id <$> simpleTasks ->
      deleteSimpleTask (pretty (clock n)) (simpleTasks ++ [task]) = simpleTasks)).
Proof.
  unfold addSimpleTask. split.
  - intros Hblank. by rewrite bool_decide_eq_true_2.
  - intros Hinput. rewrite bool_decide_eq_false_2 by done.
    eexists. split; [reflexivity |]. split_and!; try reflexivity.
    + unfold completedCount. rewrite List.filter_app, length_app. simpl. lia.
    + intros Hfresh. unfold deleteSimpleTask. rewrite List.filter_app. simpl.
      rewrite bool_decide_eq_true_2 by done. simpl. rewrite app_nil_r.
      by apply deleteSimpleTask_unknown.
Qed.

Lemma addSimpleTask_outcome_witness :
  addSimpleTask sampleClock sampleTrim "   " [] 0%nat = Ok ([], "   ") 0%nat /\
  exists task,
    addSimpleTask sampleClock sampleTrim " Buy milk " [] 0%nat
    = Ok ([task], EmptyString) 2%nat /\
    SimpleTask.title task = "Buy milk".
Proof.
  split.
  - by apply (addSimpleTask_outcome sampleClock sampleTrim "   " [] 0%nat).
  - destruct (addSimpleTask_outcome sampleClock sampleTrim " Buy milk " [] 0%nat)
      as [_ Hadd].
    destruct Hadd as (task & Hrun & _ & Htitle & _); [discriminate |].
    exists task. split; [exact Hrun | exact Htitle].
Defined.

(** ** The updates service *)

(** X12.  DELETE answers 204 exactly when GET on the same id answered 200
    and 404 otherwise; after it GET on that id answers 404, every other id
    is answered as before, and a second DELETE answers 404 and leaves the
    repository as it is. *)
Theorem deleteUpdate_then_getUpdate (Update : Type) id other
    (updateRepository : gmap Z Update) :
  let reply := fst (UpdateController.deleteUpdate Update id updateRepository) in
  let repository := snd (UpdateController.deleteUpdate Update id updateRepository) in
  (reply = noContent <->
   exists update, UpdateController.getUpdate Update id updateRepository = ok update) /\
  (reply = notFound <->
   UpdateController.getUpdate Update id updateRepository = notFound) /\
  UpdateController.getUpdate Update id repository = notFound /\
  (other <> id ->
   UpdateController.getUpdate Update other repository
   = UpdateController.getUpdate Update other updateRepository) /\
  UpdateController.deleteUpdate Update id repository = (notFound, repository).
Proof.
  unfold UpdateController.deleteUpdate, UpdateController.getUpdate,
    UpdateService.deleteUpdate, UpdateService.getUpdate.
  destruct (updateRepository !! id) as [update|] eqn:Hid.
  - rewrite bool_decide_eq_true_2 by eauto. simpl.
    rewrite lookup_delete_eq. rewrite bool_decide_eq_false_2 by (by intros [? ?]).
    split_and!; try done.
    + split; [eauto | done].
    + intros Hne. by rewrite lookup_delete_ne.
  - rewrite bool_decide_eq_false_2 by (by intros [? ?]). simpl. rewrite Hid.
    rewrite bool_decide_eq_false_2 by (by intros [? ?]).
    split_and!; try done.
    split; [done | by intros [? ?]].
Qed.

Lemma deleteUpdate_then_getUpdate_witness :
  UpdateController.getUpdate string 2
    (snd (UpdateController.deleteUpdate string 1
            (<[1 := "first"]> (<[2 := "second"]> ∅))))
  = UpdateController.getUpdate string 2 (<[1 := "first"]> (<[2 := "second"]> ∅)).
Proof.
  apply (deleteUpdate_then_getUpdate string 1 2
           (<[1 := "first"]> (<[2 := "second"]> ∅))).
  discriminate.
Defined.

(** ** Windows of the view *)

Lemma filter_sublist_impl {A} (p q : A -> bool) l :
  (forall x, p x = true -> q x = true) ->
  sublist (List.filter p l) (List.filter q l).
Proof.
  intros Hpq. induction l as [|x l IH]; simpl; [constructor |].
  destruct (p x) eqn:Hp.
  - rewrite (Hpq x Hp). by constructor.
  - destruct (q x); [by constructor | done].
Qed.

Lemma filter_map_commute {A} (p : A -> bool) (f : A -> A) l :
  (forall x, p (f x) = p x) ->
  List.filter p (map f l) = map f (List.filter p l).
Proof.
  intros Hpf. induction l as [|x l IH]; simpl; [done |].
  rewrite Hpf. destruct (p x); simpl; by rewrite IH.
Qed.

Lemma filter_filter_comm {A} (p q : A -> bool) l :
  List.filter p (List.filter q l) = List.filter q (List.filter p l).
Proof.
  induction l as [|x l IH]; simpl; [done |].
  destruct (p x) eqn:Hp, (q x) eqn:Hq; simpl; rewrite ?Hp, ?Hq, IH; done.
Qed.

(** X13.  The week view holds every task of the today view and of the
    yesterday view, in the order of the collection; and the view commutes
    with [updateTaskStatus] and [deleteTask], which write neither
    [createdAt] nor a subtask's [completedAt]. *)
Theorem week_view_contains_days startOfDay w now taskId newStatus tasks :
  sublist (timeWindowFilter startOfDay Today now tasks)
          (timeWindowFilter startOfDay Week now tasks) /\
  sublist (timeWindowFilter startOfDay Yesterday now tasks)
          (timeWindowFilter startOfDay Week now tasks) /\
  timeWindowFilter startOfDay w now (updateTaskStatus taskId newStatus tasks)
  = updateTaskStatus taskId newStatus (timeWindowFilter startOfDay w now tasks) /\
  timeWindowFilter startOfDay w now (deleteTask taskId tasks)
  = deleteTask taskId (timeWindowFilter startOfDay w now tasks).
Proof.
  assert (forall v today d, (v = Today \/ v = Yesterday) ->
            inWindow v today d -> inWindow Week today d) as Hin.
  { intros v today d [-> | ->]; simpl; lia. }
  assert (forall v, (v = Today \/ v = Yesterday) ->
            sublist (timeWindowFilter startOfDay v now tasks)
                    (timeWindowFilter startOfDay Week now tasks)) as Hsub.
  { intros v Hv. unfold timeWindowFilter. cbv zeta.
    apply filter_sublist_impl. intros t.
    rewrite !orb_true_iff, !hasRecentSubtaskActivity_spec, !isRecentTask_spec.
    intros [(st & d & Hst & Hd & Hw) | Hw]; [left | right]; eauto 10. }
  split_and!; [apply Hsub; auto | apply Hsub; auto | |].
  - unfold timeWindowFilter, updateTaskStatus. cbv zeta.
    apply filter_map_commute. intros t.
    by destruct (bool_decide (Task.id t = taskId)).
  - unfold timeWindowFilter, deleteTask. cbv zeta. apply filter_filter_comm.
Qed.

(** ** The content of the assistant's message *)

Lemma imapM_const_index {A B} (f : A -> M B) l :
  forall i j n, imapM (fun _ => f) i l n = imapM (fun _ => f) j l n.
Proof.
  induction l as [|x l IH]; intros i j n; simpl; [done |].
  unfold bind. destruct (f x n) as [y n1|e]; [| done].
  by rewrite (IH (S i) (S j)).
Qed.

Lemma mapM_cons {A B} (f : A -> M B) x l n :
  mapM f (x :: l) n
  = match f x n with
    | Ok y n1 =>
        match mapM f l n1 with
        | Ok ys n2 => Ok (y :: ys) n2
        | Throw e => Throw e
        end
    | Throw e => Throw e
    end.
Proof.
  unfold mapM. simpl. unfold bind, ret.
  destruct (f x n) as [y n1|e]; [| done].
  by rewrite (imapM_const_index f l 1 0).
Qed.

(** A map whose callback returns without reading the clock does so too. *)
Lemma mapM_quiet {A B} (f : A -> M B) l :
  (forall x n, x ∈ l -> exists y, f x n = Ok y n) ->
  forall n, exists ys, mapM f l n = Ok ys n.
Proof.
  induction l as [|x l IH]; intros Hf n; [by exists [] |].
  rewrite mapM_cons.
  destruct (Hf x n) as [y ->]; [left |].
  destruct (IH (fun z m Hz => Hf z m (list_elem_of_further _ _ _ Hz)) n)
    as [ys ->].
  by exists (y :: ys).
Qed.

Lemma concat_header (x : string) (l : list string) :
  String.concat EmptyString (x :: l) = x +:+ String.concat EmptyString l.
Proof.
  destruct l as [|y l]; [| done]. cbn [String.concat].
  induction x as [|c x IH]; [done |].
  change (String c x +:+ EmptyString) with (String c (x +:+ EmptyString)).
  by f_equal.
Qed.

Section Rendering.

Variable parse : string -> option JSON.
Variable numberToString : Z -> string.
Variable stringify : JSON -> string.

Lemma toStr_printable :
  forall v, printable v = true -> exists text, toStr numberToString v = inr text.
Proof.
  fix IH 1. intros [| b | z | s | items | fields] Hp; simpl.
  - by eexists.
  - by eexists.
  - by eexists.
  - by eexists.
  - simpl in Hp.
    match goal with
    | |- exists text, match ?join items with _ => _ end = _ =>
        assert (exists texts, join items = inr texts) as [texts ->];
          [| by eexists]
    end.
    revert items Hp. fix IHitems 1. intros [|x rest] Hp; [by eexists |].
    simpl in Hp. apply andb_true_iff in Hp as [Hx Hrest].
    destruct (IHitems rest Hrest) as [texts Htexts].
    destruct (IH x Hx) as [text Htext].
    rewrite Htexts.
    destruct x; rewrite ?Htext; by eexists.
  - simpl in Hp. destruct (assoc "toString" fields); [done | by eexists].
Qed.

Lemma toStr_unprintable :
  forall v, printable v = false -> toStr numberToString v = inl TypeError.
Proof.
  fix IH 1. intros [| b | z | s | items | fields] Hp; simpl;
    try discriminate Hp.
  - simpl in Hp.
    match goal with
    | |- match ?join items with _ => _ end = _ =>
        assert (join items = inl TypeError) as ->; [| reflexivity]
    end.
    revert items Hp. fix IHitems 1. intros [|x rest] Hp; [discriminate Hp |].
    simpl in Hp. apply andb_false_iff in Hp as [Hx | Hrest].
    + pose proof (IH x Hx) as Htext.
      destruct x; try discriminate Hx; by rewrite Htext.
    + rewrite (IHitems rest Hrest).
      by destruct (match x with JNull => inr EmptyString
                   | _ => toStr numberToString x end) as [[]|].
  - simpl in Hp. by destruct (assoc "toString" fields).
Qed.

Lemma show_printable v :
  printableValue v = true -> exists text, show numberToString v = inr text.
Proof. destruct v as [j|]; simpl; [apply toStr_printable | eauto]. Qed.

Lemma pushIf_quiet v text n :
  printableValue v = true ->
  exists parts, pushIf numberToString v text n = Ok parts n.
Proof.
  intros Hv. unfold pushIf. destruct (truthy v); [| by eexists].
  destruct (show_printable v Hv) as [inside Hshow].
  unfold bind, lift. rewrite Hshow. by eexists.
Qed.

Lemma renderStep_quiet step n :
  renderableStep step ->
  exists parts, renderStep numberToString step n = Ok parts n.
Proof.
  intros (Hstep & Hname & Hdescription & Hstatus & Houtput).
  unfold renderStep. unfold bind at 1, lift at 1.
  rewrite prop_field by done. unfold ret at 1. cbv beta iota.
  unfold bind at 1.
  destruct (pushIf_quiet _ (fun text => "- **" +:+ text +:+ "**") n Hname)
    as [name ->].
  unfold bind at 1, lift at 1.
  rewrite prop_field by done. unfold ret at 1. cbv beta iota.
  unfold bind at 1.
  assert (exists description,
            (if truthy (field "description" step)
             then text <- lift (show numberToString (field "description" step)) ;;
                  ret [": " +:+ text +:+ nl]
             else ret [nl]) n = Ok description n) as [description ->].
  { destruct (truthy (field "description" step)); [| by eexists].
    destruct (show_printable _ Hdescription) as [text Htext].
    unfold bind, lift. rewrite Htext. by eexists. }
  unfold bind at 1, lift at 1.
  rewrite prop_field by done. unfold ret at 1. cbv beta iota.
  unfold bind at 1.
  destruct (pushIf_quiet _ (fun text => "  Status: " +:+ text +:+ nl) n Hstatus)
    as [status ->].
  unfold bind at 1, lift at 1.
  rewrite prop_field by done. unfold ret at 1. cbv beta iota.
  unfold bind at 1.
  destruct (pushIf_quiet _ (fun text => "  Output: " +:+ text +:+ nl) n Houtput)
    as [output ->].
  by eexists.
Qed.

Lemma renderToolData_quiet toolData n :
  toolData <> JNull ->
  printableValue (field "title" toolData) = true ->
  printableValue (field "status" toolData) = true ->
  printableValue (field "priority" toolData) = true ->
  Forall renderableStep (arrayItems (field "steps" toolData)) ->
  exists parts,
    renderToolData numberToString stringify toolData n = Ok parts n.
Proof.
  intros HtoolData Htitle Hstatus Hpriority Hsteps. unfold renderToolData.
  unfold bind at 1, lift at 1.
  rewrite prop_field by done. unfold ret at 1. cbv beta iota.
  destruct (truthy (field "title" toolData)); [| by eexists].
  destruct (show_printable _ Htitle) as [title Htext].
  unfold bind at 1, lift at 1. rewrite Htext. unfold ret at 1. cbv beta iota.
  unfold bind at 1, lift at 1.
  rewrite prop_field by done. unfold ret at 1. cbv beta iota.
  unfold bind at 1.
  destruct (pushIf_quiet _ (fun text => "Status: " +:+ text +:+ nl) n Hstatus)
    as [status ->].
  unfold bind at 1, lift at 1.
  rewrite prop_field by done. unfold ret at 1. cbv beta iota.
  unfold bind at 1.
  destruct (pushIf_quiet _ (fun text => "Priority: " +:+ text +:+ nl) n Hpriority)
    as [priority ->].
  unfold bind at 1, lift at 1.
  rewrite prop_field by done. unfold ret at 1. cbv beta iota.
  unfold bind at 1.
  destruct (isArray (field "steps" toolData)); [| by eexists].
  destruct (mapM_quiet (renderStep numberToString)
              (arrayItems (field "steps" toolData))) with (n := n) as [ys Hys].
  { intros step m Hin. apply renderStep_quiet.
    by apply (proj1 (Forall_forall _ _) Hsteps). }
  unfold bind at 1. rewrite Hys. by eexists.
Qed.

(** A shown result whose title cannot be printed makes the display raise. *)
Lemma renderResult_unprintable result toolData n :
  shown result = true ->
  field "result" result = Some toolData ->
  printableValue (field "title" toolData) = false ->
  renderResult numberToString stringify result n = Throw TypeError.
Proof.
  unfold shown. intros [Htool Htruthy]%andb_true_iff HtoolData Htitle.
  assert (result <> JNull) as Hresult by (intros ->; discriminate HtoolData).
  rewrite HtoolData in Htruthy.
  pose proof (truthy_not_null _ Htruthy) as Hnull.
  unfold renderResult. unfold bind at 1, lift at 1.
  rewrite prop_field by done. unfold ret at 1. cbv beta iota.
  unfold bind at 1, lift at 1.
  rewrite prop_field by done. unfold ret at 1. cbv beta iota.
  rewrite HtoolData, Htool, Htruthy. cbn [andb].
  unfold renderToolData. unfold bind at 1, lift at 1.
  rewrite prop_field by done. unfold ret at 1. cbv beta iota.
  destruct (field "title" toolData) as [title|]; [| discriminate Htitle].
  simpl in Htitle.
  assert (truthy (Some title) = true) as ->
    by (destruct title; try discriminate Htitle; done).
  unfold bind at 1, lift at 1. cbn [show].
  by rewrite (toStr_unprintable title Htitle).
Qed.

Lemma renderResult_null n :
  renderResult numberToString stringify JNull n = Throw TypeError.
Proof. done. Qed.

Lemma renderResult_unshown result n :
  result <> JNull -> shown result = false ->
  renderResult numberToString stringify result n = Ok [] n.
Proof.
  intros Hresult Hshown. unfold renderResult, bind, lift.
  rewrite !prop_field by done. simpl. unfold shown in Hshown.
  destruct (field "result" result) as [toolData|]; [| done].
  by rewrite Hshown.
Qed.

Lemma renderResult_quiet result n :
  renderable result ->
  exists parts, renderResult numberToString stringify result n = Ok parts n.
Proof.
  intros [Hresult Hsteps]. unfold renderResult, bind, lift.
  rewrite !prop_field by done. unfold ret. cbv beta iota.
  destruct (field "result" result) as [toolData|] eqn:HtoolData; [| eauto].
  destruct (isGetUpdates (field "tool" result)); [| simpl; eauto].
  destruct (truthy (Some toolData)) eqn:Htruthy; [| simpl; eauto].
  cbv beta iota. cbn [andb].
  destruct (Hsteps toolData eq_refl) as (Htitle & Hstatus & Hpriority & Hall).
  apply renderToolData_quiet; [by apply truthy_not_null | done ..].
Qed.

Lemma renderResults_cons result l n :
  renderResults numberToString stringify (result :: l) n
  = match renderResult numberToString stringify result n with
    | Ok parts n1 =>
        match renderResults numberToString stringify l n1 with
        | Ok rest n2 => Ok (parts ++ rest)%list n2
        | Throw e => Throw e
        end
    | Throw e => Throw e
    end.
Proof.
  unfold renderResults, bind, ret. rewrite mapM_cons.
  destruct (renderResult numberToString stringify result n) as [y n1|e]; [| done].
  by destruct (mapM (renderResult numberToString stringify) l n1).
Qed.

Lemma renderResults_quiet l n :
  Forall renderable l ->
  exists parts, renderResults numberToString stringify l n = Ok parts n.
Proof.
  induction 1 as [|result l Hresult _ IH]; [by exists [] |].
  rewrite renderResults_cons.
  destruct (renderResult_quiet result n Hresult) as [parts ->].
  destruct IH as [rest ->]. eauto.
Qed.

Lemma renderResults_raise l result :
  result ∈ l ->
  (forall n, renderResult numberToString stringify result n = Throw TypeError) ->
  forall n, renderResults numberToString stringify l n = Throw TypeError.
Proof.
  intros Hin Hraise.
  induction l as [|first l IH]; intros n; [by apply elem_of_nil in Hin |].
  rewrite renderResults_cons.
  apply elem_of_cons in Hin as [<-|Hin]; [by rewrite Hraise |].
  destruct (renderResult numberToString stringify first n) as [y n1|[]];
    [| done].
  by rewrite (IH Hin n1).
Qed.

Lemma renderResults_shown l :
  Forall (fun result => result <> JNull) l ->
  forall n, renderResults numberToString stringify l n
            = renderResults numberToString stringify (List.filter shown l) n.
Proof.
  induction 1 as [|result l Hresult _ IH]; intros n; [done |].
  cbn [List.filter]. destruct (shown result) eqn:Hshown.
  - rewrite !renderResults_cons.
    destruct (renderResult numberToString stringify result n) as [y n1|e];
      [| done].
    by rewrite IH.
  - rewrite renderResults_cons, (renderResult_unshown result n Hresult Hshown).
    rewrite <- IH.
    by destruct (renderResults numberToString stringify l n).
Qed.

(** The content for an answer that carries its tool results directly. *)
Lemma responseContent_structured parsedData n :
  structured parsedData = true ->
  nonEmptyString (field "response" parsedData) = None ->
  responseContent parse numberToString stringify parsedData n
  = (parts <- renderResults numberToString stringify
                (arrayItems (field "tool_results" parsedData)) ;;
     ret (String.concat EmptyString (contentHeader :: parts))) n.
Proof.
  unfold structured. intros [Htruthy Harray]%andb_true_iff Hresponse.
  pose proof (truthy_not_null _ Htruthy) as Hnull.
  unfold responseContent. rewrite Htruthy. unfold bind at 1, lift at 1.
  rewrite prop_field by done. unfold ret at 1. cbv beta iota zeta.
  rewrite Hresponse, Htruthy.
  unfold bind at 1, lift at 1. rewrite prop_field by done.
  unfold ret at 1. cbv beta iota.
  rewrite Harray. unfold renderResults, bind, ret.
  by destruct (mapM _ _ n).
Qed.

Lemma responseContent_answerWith toolResults n :
  responseContent parse numberToString stringify (answerWith toolResults) n
  = (parts <- renderResults numberToString stringify toolResults ;;
     ret (String.concat EmptyString (contentHeader :: parts))) n.
Proof. by rewrite responseContent_structured. Qed.

(** The content when the [response] field holds a text. *)
Lemma responseContent_wrapped fields text n :
  assoc "response" fields = Some (JStr text) -> text <> EmptyString ->
  responseContent parse numberToString stringify (JObj fields) n
  = match parse text with
    | Some parsedData =>
        if structured parsedData
        then (parts <- renderResults numberToString stringify
                         (arrayItems (field "tool_results" parsedData)) ;;
              ret (String.concat EmptyString (contentHeader :: parts))) n
        else Ok text n
    | None => Ok text n
    end.
Proof.
  intros Hresponse Htext.
  assert (nonEmptyString (Some (JStr text)) = Some text) as Hnonempty.
  { simpl. by rewrite bool_decide_eq_false_2. }
  unfold responseContent. change (truthy (Some (JObj fields))) with true.
  cbv beta iota. unfold bind at 1, lift at 1.
  cbn [prop]. rewrite Hresponse. unfold ret at 1. cbv beta iota zeta.
  rewrite Hnonempty.
  destruct (parse text) as [parsedData|]; [| reflexivity].
  unfold structured.
  destruct (truthy (Some parsedData)) eqn:Htruthy; [| reflexivity].
  pose proof (truthy_not_null _ Htruthy) as Hnull.
  unfold bind at 1, lift at 1. rewrite prop_field by done.
  unfold ret at 1. cbv beta iota. cbn [andb].
  destruct (isArray (field "tool_results" parsedData)); [| reflexivity].
  unfold renderResults, bind, ret.
  by destruct (mapM _ _ n).
Qed.

End Rendering.

(** X14.  An answer that is a text is the content of the message as it
    is, the default sentence standing in for the empty text; so a query
    that failed, for which [generateAIResponse] answers with its apology,
    shows the apology.  Nothing is parsed and nothing raises. *)
Theorem string_answer_shown parse numberToString stringify reply text n :
  responseContent parse numberToString stringify (JStr text) n
  = Ok (if bool_decide (text = EmptyString) then defaultContent else text) n /\
  (failed reply ->
   responseContent parse numberToString stringify (generateAIResponse reply) n
   = Ok apology n).
Proof.
  split.
  - by destruct text.
  - intros Hfailed.
    assert (generateAIResponse reply = JStr apology) as ->
      by (by destruct reply as [|[] []]).
    reflexivity.
Qed.

Lemma string_answer_shown_witness :
  responseContent (fun _ => None) pretty (fun _ => EmptyString)
    (generateAIResponse (Reply false None)) 0%nat
  = Ok apology 0%nat.
Proof.
  by apply (string_answer_shown (fun _ => None) pretty (fun _ => EmptyString)
              (Reply false None) EmptyString 0%nat).
Defined.

(** X15.  When the answer is an object whose [response] is a text, only
    that text counts: if it cannot be parsed, or parses to something
    without an array of tool results, the text itself is the content, and
    nothing raises; if it parses to an answer with tool results (and no
    text [response] of its own), the content is the one for that answer
    received directly. *)
Theorem wrapped_answer parse numberToString stringify fields text n :
  assoc "response" fields = Some (JStr text) -> text <> EmptyString ->
  (parse text = None ->
   responseContent parse numberToString stringify (JObj fields) n = Ok text n) /\
  (forall parsedData, parse text = Some parsedData ->
     structured parsedData = false ->
     responseContent parse numberToString stringify (JObj fields) n = Ok text n) /\
  (forall parsedData, parse text = Some parsedData ->
     structured parsedData = true ->
     nonEmptyString (field "response" parsedData) = None ->
     responseContent parse numberToString stringify (JObj fields) n
     = responseContent parse numberToString stringify parsedData n).
Proof.
  intros Hresponse Htext.
  rewrite (responseContent_wrapped _ _ _ _ _ _ Hresponse Htext).
  split_and!.
  - by intros ->.
  - by intros parsedData -> ->.
  - intros parsedData -> Hstructured Hplain. rewrite Hstructured.
    by rewrite responseContent_structured.
Qed.

Lemma wrapped_answer_witness :
  responseContent (fun _ => Some (answerWith [])) pretty (fun _ => EmptyString)
    (JObj [("response", JStr "{}"); ("tool_results", JNum 1)]) 0%nat
  = responseContent (fun _ => Some (answerWith [])) pretty (fun _ => EmptyString)
      (answerWith []) 0%nat.
Proof.
  by apply (wrapped_answer (fun _ => Some (answerWith [])) pretty
              (fun _ => EmptyString)
              [("response", JStr "{}"); ("tool_results", JNum 1)] "{}" 0%nat).
Defined.

(** X16.  Building the content never reads the clock.  When no tool
    result is null, no step is null, and no value put in the text (title,
    status, priority, and step, description, status and output of a step)
    holds an object with a key toString, the content is made and starts
    with the header.  A null among the tool results makes the handler
    raise a TypeError, and so does a shown result whose title holds such
    an object. *)
Theorem renderable_results_shown parse numberToString stringify toolResults n :
  (Forall renderable toolResults ->
   exists body,
     responseContent parse numberToString stringify (answerWith toolResults) n
     = Ok (contentHeader +:+ body) n) /\
  (JNull ∈ toolResults ->
   responseContent parse numberToString stringify (answerWith toolResults) n
   = Throw TypeError) /\
  (forall result toolData,
     result ∈ toolResults -> shown result = true ->
     field "result" result = Some toolData ->
     printableValue (field "title" toolData) = false ->
     responseContent parse numberToString stringify (answerWith toolResults) n
     = Throw TypeError).
Proof.
  rewrite responseContent_answerWith. unfold bind, ret. split_and!.
  - intros Hrenderable.
    destruct (renderResults_quiet numberToString stringify toolResults n
                Hrenderable) as [parts ->].
    exists (String.concat EmptyString parts). by rewrite concat_header.
  - intros Hnull.
    by rewrite (renderResults_raise numberToString stringify toolResults JNull
                  Hnull (renderResult_null numberToString stringify)).
  - intros result toolData Hin Hshown HtoolData Htitle.
    rewrite (renderResults_raise numberToString stringify toolResults result Hin);
      [done |].
    intros m. by eapply renderResult_unprintable.
Qed.

Lemma renderable_results_shown_witness :
  (exists body,
     responseContent (fun _ => None) pretty (fun _ => EmptyString)
       (answerWith [JObj [("tool", JStr "get_updates"); ("result", sampleRecord)]])
       0%nat
     = Ok (contentHeader +:+ body) 0%nat) /\
  responseContent (fun _ => None) pretty (fun _ => EmptyString)
    (answerWith
       [JObj [("tool", JStr "get_updates");
              ("result", JObj [("title", JObj [("toString", JNum 1)])])]])
    0%nat
  = Throw TypeError.
Proof.
  split.
  - apply (renderable_results_shown (fun _ => None) pretty (fun _ => EmptyString)
             [JObj [("tool", JStr "get_updates"); ("result", sampleRecord)]]
             0%nat).
    apply Forall_cons_2; [| apply Forall_nil_2].
    split; [discriminate |]. intros record [= <-].
    split_and!; try reflexivity.
    repeat apply Forall_cons_2; try apply Forall_nil_2;
      (split_and!; [discriminate | reflexivity ..]).
  - apply (renderable_results_shown (fun _ => None) pretty (fun _ => EmptyString)
             [JObj [("tool", JStr "get_updates");
                    ("result", JObj [("title", JObj [("toString", JNum 1)])])]]
             0%nat)
      with (result := JObj [("tool", JStr "get_updates");
                            ("result", JObj [("title", JObj [("toString", JNum 1)])])])
           (toolData := JObj [("title", JObj [("toString", JNum 1)])]).
    + apply elem_of_cons. by left.
    + reflexivity.
    + reflexivity.
    + reflexivity.
Defined.

(** X17.  Tool results that are not shown (another tool than get_updates,
    or a falsy result) leave no trace in the content: with no null among
    the tool results, the content is the one for the shown results alone,
    and the bare header when none is shown. *)
Theorem unshown_results_ignored parse numberToString stringify toolResults n :
  Forall (fun result => result <> JNull) toolResults ->
  responseContent parse numberToString stringify (answerWith toolResults) n
  = responseContent parse numberToString stringify
      (answerWith (List.filter shown toolResults)) n /\
  (Forall (fun result => shown result = false) toolResults ->
   responseContent parse numberToString stringify (answerWith toolResults) n
   = Ok contentHeader n).
Proof.
  intros Hnull. rewrite !responseContent_answerWith. unfold bind.
  rewrite (renderResults_shown numberToString stringify toolResults Hnull n).
  split; [done |]. intros Hunshown.
  assert (List.filter shown toolResults = []) as ->; [| done].
  clear Hnull. induction Hunshown as [|result l Hresult _ IH]; [done |].
  cbn [List.filter]. by rewrite Hresult.
Qed.

Lemma unshown_results_ignored_witness :
  responseContent (fun _ => None) pretty (fun _ => EmptyString)
    (answerWith [JObj [("tool", JStr "search"); ("result", sampleRecord)];
                 JObj [("tool", JStr "get_updates"); ("result", JNum 0)]]) 0%nat
  = Ok contentHeader 0%nat.
Proof.
  apply (unshown_results_ignored (fun _ => None) pretty (fun _ => EmptyString)
           [JObj [("tool", JStr "search"); ("result", sampleRecord)];
            JObj [("tool", JStr "get_updates"); ("result", JNum 0)]] 0%nat).
  - repeat constructor; discriminate.
  - repeat constructor.
Defined.

(** ** A click on a task row *)

Lemma fmap_single {A} (f : A -> A) (l : list A) i x :
  l !! i = Some x ->
  (forall k y, l !! k = Some y -> k <> i -> f y = y) ->
  f <$> l = <[i := f x]> l.
Proof.
  intros Hi Hother. apply list_eq. intros k. rewrite list_lookup_fmap.
  destruct (decide (k = i)) as [->|Hne].
  - rewrite Hi, list_lookup_insert_eq; [done |]. by eapply lookup_lt_Some.
  - rewrite list_lookup_insert_ne by done.
    destruct (l !! k) as [y|] eqn:Hk; [| done]. simpl.
    by rewrite (Hother k y Hk Hne).
Qed.

Lemma withStatus_own t newStatus :
  withStatus (Task.id t) newStatus t
  = Task.mk (Task.id t) (Task.title t) (Task.description t) newStatus
      (Task.priority t) (Task.createdAt t) (Task.subtasks t).
Proof. unfold withStatus. by rewrite bool_decide_eq_true_2. Qed.

Lemma toggleTaskAt_row prev i t :
  NoDup (Task.id <$> prev) -> prev !! i = Some t ->
  toggleTaskAt i prev
  = <[i := withStatus (Task.id t) (nextStatus (Task.status t)) t]> prev.
Proof.
  intros Hnd Ht. unfold toggleTaskAt, onClickTask, updateTaskStatus.
  rewrite Ht.
  apply (fmap_single (withStatus (Task.id t) (nextStatus (Task.status t)))
           prev i t Ht).
  intros k y Hk Hne. unfold withStatus.
  rewrite bool_decide_eq_false_2; [done |].
  by apply (NoDup_fmap_lookup_ne Task.id prev i k t y).
Qed.

(** X18.  In a collection whose task ids are all distinct, a click on the
    status button of a task row replaces the status of that row by the
    next one of the cycle and leaves every other row, and every other
    field and every subtask of the clicked row, as they were; three clicks
    on the same row give back the collection itself. *)
Theorem click_changes_one_task prev i t :
  NoDup (Task.id <$> prev) -> prev !! i = Some t ->
  toggleTaskAt i prev
  = <[i := withStatus (Task.id t) (nextStatus (Task.status t)) t]> prev /\
  toggleTaskAt i (toggleTaskAt i (toggleTaskAt i prev)) = prev.
Proof.
  intros Hnd Ht. split; [by apply toggleTaskAt_row |].
  assert (forall l u, NoDup (Task.id <$> l) -> l !! i = Some u ->
            NoDup (Task.id <$> toggleTaskAt i l) /\
            toggleTaskAt i l !! i
            = Some (withStatus (Task.id u) (nextStatus (Task.status u)) u))
    as Hstep.
  { intros l u Hl Hu. rewrite (toggleTaskAt_row l i u Hl Hu). split.
    - rewrite list_fmap_insert.
      rewrite list_insert_id; [done |].
      rewrite list_lookup_fmap, Hu. unfold withStatus.
      by rewrite bool_decide_eq_true_2.
    - apply list_lookup_insert_eq. by eapply lookup_lt_Some. }
  destruct (Hstep prev t Hnd Ht) as [Hnd1 Ht1].
  destruct (Hstep _ _ Hnd1 Ht1) as [Hnd2 Ht2].
  rewrite (toggleTaskAt_row _ i _ Hnd2 Ht2).
  rewrite (toggleTaskAt_row _ i _ Hnd1 Ht1).
  rewrite (toggleTaskAt_row _ i _ Hnd Ht).
  rewrite !list_insert_insert_eq. apply list_insert_id. rewrite Ht. f_equal.
  rewrite !withStatus_own. simpl.
  destruct t as [id title description status priority createdAt subtasks].
  by destruct status.
Qed.

Lemma click_changes_one_task_witness :
  toggleTaskAt 1
    (toggleTaskAt 1
       (toggleTaskAt 1 [sampleTask "t1" Pending []; sampleTask "t2" Completed []]))
  = [sampleTask "t1" Pending []; sampleTask "t2" Completed []].
Proof.
  apply (click_changes_one_task
           [sampleTask "t1" Pending []; sampleTask "t2" Completed []] 1
           (sampleTask "t2" Completed [])).
  - by apply (bool_decide_unpack _); vm_compute.
  - reflexivity.
Defined.
